(** * ImFileBrowser: a shallow embedding of the listing engine, the file
    browser session state and the confirmation dialog, with the properties
    of the specification settled against it. *)

From Stdlib Require Import ZArith List String Ascii Bool Lia Permutation.
Import ListNotations.


(* ------------------------------------------------------------------ *)
(** ** Characters and strings (C locale, [std::string]) *)

(** [::tolower] in the C locale: only 'A'..'Z' are changed. *)
Definition tolower (c : ascii) : ascii :=
  let n := nat_of_ascii c in
  if ((65 <=? n) && (n <=? 90))%nat then ascii_of_nat (n + 32)%nat else c.

(** [std::transform(s.begin(), s.end(), s.begin(), ::tolower)]. *)
Fixpoint lower (s : string) : string :=
  match s with
  | EmptyString => EmptyString
  | String c s' => String (tolower c) (lower s')
  end.

(** [std::string::operator<]: lexicographic, characters compared as
    [unsigned char] ([char_traits<char>::lt]). *)
Fixpoint str_lt (a b : string) : bool :=
  match a, b with
  | _, EmptyString => false
  | EmptyString, String _ _ => true
  | String x a', String y b' =>
      let nx := nat_of_ascii x in
      let ny := nat_of_ascii y in
      if nx <? ny then true else if ny <? nx then false else str_lt a' b'
  end.

(** [s.substr(0, n)] and [s.substr(n)]. *)
Fixpoint take (n : nat) (s : string) : string :=
  match n, s with
  | O, _ => EmptyString
  | _, EmptyString => EmptyString
  | S n', String c s' => String c (take n' s')
  end.

Fixpoint drop (n : nat) (s : string) : string :=
  match n, s with
  | O, _ => s
  | _, EmptyString => EmptyString
  | S n', String _ s' => drop n' s'
  end.

Fixpoint starts_with (p s : string) : bool :=
  match p, s with
  | EmptyString, _ => true
  | String _ _, EmptyString => false
  | String x p', String y s' => Ascii.eqb x y && starts_with p' s'
  end.

(** [s.find(p)]: index of the first occurrence of [p], [None] for npos. *)
Fixpoint find_sub (p s : string) : option nat :=
  if starts_with p s then Some 0 else
  match s with
  | EmptyString => None
  | String _ s' => option_map S (find_sub p s')
  end.

(** [s.find_first_of(set)]. *)
Fixpoint find_first_of (set s : string) : option nat :=
  match s with
  | EmptyString => None
  | String c s' =>
      if existsb (Ascii.eqb c) (list_ascii_of_string set) then Some 0
      else option_map S (find_first_of set s')
  end.

(** [s.rfind(c)]: index of the last occurrence of [c]. *)
Fixpoint rfind_char (c : ascii) (s : string) : option nat :=
  match s with
  | EmptyString => None
  | String x s' =>
      match rfind_char c s' with
      | Some i => Some (S i)
      | None => if Ascii.eqb x c then Some 0 else None
      end
  end.

(* ------------------------------------------------------------------ *)
(** ** Types.hpp *)

Inductive Mode := Open | Save | SelectFolder.

Inductive SortOrder := NameAsc | NameDesc | SizeAsc | SizeDesc | DateAsc | DateDesc.

(* ------------------------------------------------------------------ *)
(** ** FileSystemHelper.hpp: entries and sorting *)

Record FileEntry := mkEntry {
  name : string;
  path : string;
  isDirectory : bool;
  size : Z;           (* uint64_t, 0 for directories *)
  modifiedTime : Z
}.

(** [a.isDirectory > b.isDirectory] on [bool]. *)
Definition dir_gt (a b : FileEntry) : bool :=
  isDirectory a && negb (isDirectory b).

Definition dir_ne (a b : FileEntry) : bool :=
  negb (Bool.eqb (isDirectory a) (isDirectory b)).

Definition compareName (a b : FileEntry) : bool :=
  if dir_ne a b then dir_gt a b else str_lt (lower (name a)) (lower (name b)).

Definition compareSize (a b : FileEntry) : bool :=
  if dir_ne a b then dir_gt a b else Z.ltb (size a) (size b).

Definition compareDate (a b : FileEntry) : bool :=
  if dir_ne a b then dir_gt a b else Z.ltb (modifiedTime a) (modifiedTime b).

(** The comparator passed to [std::sort] for each order, as written in
    [SortEntries]. *)
Definition sort_comparator (o : SortOrder) : FileEntry -> FileEntry -> bool :=
  match o with
  | NameAsc => compareName
  | NameDesc => fun a b =>
      negb (compareName a b) &&
      (Bool.eqb (isDirectory a) (isDirectory b) || compareName a b)
  | SizeAsc => compareSize
  | SizeDesc => fun a b =>
      if dir_ne a b then dir_gt a b else Z.gtb (size a) (size b)
  | DateAsc => compareDate
  | DateDesc => fun a b =>
      if dir_ne a b then dir_gt a b else Z.gtb (modifiedTime a) (modifiedTime b)
  end.

Section InsertionSort.
Variable A : Type.
Variable comp : A -> A -> bool.

(** [__unguarded_linear_insert]: walk left from the end of the sorted
    prefix while [comp val *next]; here on the reversed prefix. *)
Fixpoint unguarded_ins (x : A) (rev_prefix : list A) : list A :=
  match rev_prefix with
  | [] => [x]
  | y :: ys => if comp x y then y :: unguarded_ins x ys else x :: y :: ys
  end.

(** One iteration of [__insertion_sort]: if [comp( *i, *first)] the element
    moves to the front, otherwise it is inserted from the back. *)
Definition insertion_step (prefix : list A) (x : A) : list A :=
  match prefix with
  | [] => [x]
  | f :: _ =>
      if comp x f then x :: prefix
      else rev (unguarded_ins x (rev prefix))
  end.

(** libstdc++'s [std::sort] on a range of at most 16 elements
    ([_S_threshold]): [__introsort_loop] does nothing and
    [__final_insertion_sort] runs [__insertion_sort] on the whole range. *)
Definition insertion_sort (l : list A) : list A :=
  fold_left insertion_step l [].
End InsertionSort.

Arguments unguarded_ins {A} comp x rev_prefix.
Arguments insertion_step {A} comp prefix x.
Arguments insertion_sort {A} comp l.

(** [std::sort(entries.begin(), entries.end(), comp)], modelled by the
    libstdc++ insertion sort (exact for listings of at most 16 entries). *)
Definition SortEntries (entries : list FileEntry) (order : SortOrder) : list FileEntry :=
  insertion_sort (sort_comparator order) entries.

(** The filesystem collaborator, as the listing and navigation code query it.
    [fs_iter p] is the sequence [std::filesystem::directory_iterator(p)]
    yields (with each entry's type, size and time already read), or [None]
    when constructing or advancing the iterator throws. [fs_status p] is the
    outcome of [stat(p)]. *)
Inductive stat_result :=
  | StatDirectory
  | StatOther                 (* exists, not a directory *)
  | StatNotFound              (* ENOENT or ENOTDIR *)
  | StatError.                (* any other error: EACCES, ENAMETOOLONG, ELOOP, ... *)

Record FileSystem := mkFS {
  fs_iter : string -> option (list FileEntry);
  fs_status : string -> stat_result
}.

(** [ListDirectory]: collect, then [SortEntries]; on exception an empty
    vector is returned. *)
Definition ListDirectory (fs : FileSystem) (p : string) (order : SortOrder) : list FileEntry :=
  match fs_iter fs p with
  | Some es => SortEntries es order
  | None => []
  end.

(** [GetExtension]: [fs::path(p).extension()] (libstdc++, POSIX), then
    lowercased. The filename is the text after the last '/' (empty when
    the path ends in '/'); a filename of at most two characters starting with
    '.' ("." , "..", ".x") has no extension; otherwise the extension starts at
    the rightmost '.' unless that is the first character. *)
Definition path_filename (p : string) : string :=
  match rfind_char "/" p with
  | Some i => drop (S i) p
  | None => p
  end.

Definition path_extension (p : string) : string :=
  let f := path_filename p in
  if (String.length f <=? 2) && starts_with "." f then EmptyString
  else match rfind_char "." f with
       | Some (S k) => drop (S k) f
       | _ => EmptyString
       end.

Definition GetExtension (p : string) : string := lower (path_extension p).

(** [CombinePath]: [(fs::path(base) / fs::path(child)).string()] on POSIX:
    an absolute child or an empty base gives the child; otherwise a '/' is
    inserted when the base has a filename (does not end in '/'). *)
Definition CombinePath (base child : string) : string :=
  if starts_with "/" child || String.eqb base EmptyString then child
  else if negb (String.eqb (path_filename base) EmptyString)
  then String.append base (String.append "/" child)
  else if String.eqb child EmptyString then base
  else String.append base child.

(** [CompareExtension]: equality after lowercasing both sides. *)
Definition CompareExtension (e1 e2 : string) : bool :=
  String.eqb (lower e1) (lower e2).

(** [ListDirectoryFiltered]: directories always kept, files kept when their
    extension matches one of [extensions]. *)
Definition ListDirectoryFiltered (fs : FileSystem) (p : string)
    (extensions : list string) (order : SortOrder) : list FileEntry :=
  let entries := ListDirectory fs p order in
  match extensions with
  | [] => entries
  | _ => filter (fun e => isDirectory e ||
                          existsb (CompareExtension (GetExtension (name e))) extensions)
                entries
  end.

(* ------------------------------------------------------------------ *)
(** ** FileFilter.hpp *)

Record FileFilter := mkFilter {
  description : string;
  extensions : string
}.

(** The [while ((pos = exts.find("*.")) != npos)] loop of
    [GetExtensionList]. Each iteration drops at least two characters of
    [exts], so [length exts + 1] rounds of fuel always suffice. *)
Fixpoint extension_loop (fuel : nat) (exts : string) : list string :=
  match fuel with
  | O => []
  | S fuel' =>
      match find_sub "*." exts with
      | None => []
      | Some pos =>
          let exts1 := drop (pos + 2) exts in
          match find_first_of ";," exts1 with
          | None => [lower (String "." exts1)]
          | Some endPos =>
              lower (String "." (take endPos exts1))
                :: extension_loop fuel' (drop (endPos + 1) exts1)
          end
      end
  end.

Definition GetExtensionList (f : FileFilter) : list string :=
  extension_loop (S (String.length (extensions f))) (extensions f).

(* ------------------------------------------------------------------ *)
(** ** FileBrowserDialog: session state *)

(** Exceptions that escape a member function. *)
Inductive exn := filesystem_error.

Inductive result (A : Type) :=
  | Normal (a : A)
  | Raised (e : exn).
Arguments Normal {A} a.
Arguments Raised {A} e.

Inductive BrowserResult := ResNone | ResSelected | ResCancelled.

(** The members of [FileBrowserDialog] the navigation and selection code
    reads and writes. [filenameBuffer] is the C string held in
    [m_filenameBuffer] (up to its terminating NUL). *)
Record Session := mkSession {
  mode : Mode;
  filters : list FileFilter;
  showHiddenFiles : bool;
  selectedFilterIndex : Z;
  currentPath : string;
  entries : list FileEntry;
  selectedIndex : Z;
  filenameBuffer : string;
  pendingScrollToIndex : Z;
  sortOrder : SortOrder;
  isOpen : bool;
  browserResult : BrowserResult;
  selectedPath : string
}.

Definition set_currentPath (p : string) (s : Session) : Session :=
  {| mode := mode s; filters := filters s; showHiddenFiles := showHiddenFiles s;
     selectedFilterIndex := selectedFilterIndex s; currentPath := p;
     entries := entries s; selectedIndex := selectedIndex s;
     filenameBuffer := filenameBuffer s; pendingScrollToIndex := pendingScrollToIndex s;
     sortOrder := sortOrder s; isOpen := isOpen s; browserResult := browserResult s;
     selectedPath := selectedPath s |}.

Definition set_entries (es : list FileEntry) (s : Session) : Session :=
  {| mode := mode s; filters := filters s; showHiddenFiles := showHiddenFiles s;
     selectedFilterIndex := selectedFilterIndex s; currentPath := currentPath s;
     entries := es; selectedIndex := selectedIndex s;
     filenameBuffer := filenameBuffer s; pendingScrollToIndex := pendingScrollToIndex s;
     sortOrder := sortOrder s; isOpen := isOpen s; browserResult := browserResult s;
     selectedPath := selectedPath s |}.

Definition set_selectedIndex (i : Z) (s : Session) : Session :=
  {| mode := mode s; filters := filters s; showHiddenFiles := showHiddenFiles s;
     selectedFilterIndex := selectedFilterIndex s; currentPath := currentPath s;
     entries := entries s; selectedIndex := i;
     filenameBuffer := filenameBuffer s; pendingScrollToIndex := pendingScrollToIndex s;
     sortOrder := sortOrder s; isOpen := isOpen s; browserResult := browserResult s;
     selectedPath := selectedPath s |}.

Definition set_filenameBuffer (b : string) (s : Session) : Session :=
  {| mode := mode s; filters := filters s; showHiddenFiles := showHiddenFiles s;
     selectedFilterIndex := selectedFilterIndex s; currentPath := currentPath s;
     entries := entries s; selectedIndex := selectedIndex s;
     filenameBuffer := b; pendingScrollToIndex := pendingScrollToIndex s;
     sortOrder := sortOrder s; isOpen := isOpen s; browserResult := browserResult s;
     selectedPath := selectedPath s |}.

Definition set_pendingScrollToIndex (i : Z) (s : Session) : Session :=
  {| mode := mode s; filters := filters s; showHiddenFiles := showHiddenFiles s;
     selectedFilterIndex := selectedFilterIndex s; currentPath := currentPath s;
     entries := entries s; selectedIndex := selectedIndex s;
     filenameBuffer := filenameBuffer s; pendingScrollToIndex := i;
     sortOrder := sortOrder s; isOpen := isOpen s; browserResult := browserResult s;
     selectedPath := selectedPath s |}.

Definition set_selected_result (p : string) (s : Session) : Session :=
  {| mode := mode s; filters := filters s; showHiddenFiles := showHiddenFiles s;
     selectedFilterIndex := selectedFilterIndex s; currentPath := currentPath s;
     entries := entries s; selectedIndex := selectedIndex s;
     filenameBuffer := filenameBuffer s; pendingScrollToIndex := pendingScrollToIndex s;
     sortOrder := sortOrder s; isOpen := false; browserResult := ResSelected;
     selectedPath := p |}.

Definition mode_eqb (a b : Mode) : bool :=
  match a, b with
  | Open, Open | Save, Save | SelectFolder, SelectFolder => true
  | _, _ => false
  end.

(** [m_entries[i]] for [0 <= i < size]. *)
Definition entry_at (es : list FileEntry) (i : Z) : option FileEntry :=
  if (0 <=? i)%Z && (i <? Z.of_nat (List.length es))%Z then nth_error es (Z.to_nat i) else None.

Definition GetCurrentExtensions (s : Session) : list string :=
  let i := selectedFilterIndex s in
  match filters s with
  | [] => []
  | fs =>
      if (i <? 0)%Z || (Z.of_nat (List.length fs) <=? i)%Z then []
      else match nth_error fs (Z.to_nat i) with
           | Some f => GetExtensionList f
           | None => []
           end
  end.

(** The [std::remove_if] predicate of [RefreshDirectory]. *)
Definition is_hidden (e : FileEntry) : bool :=
  match name e with
  | String c _ => Ascii.eqb c "."
  | EmptyString => false
  end.

Definition RefreshDirectory (fs : FileSystem) (s : Session) : Session :=
  let exts := GetCurrentExtensions s in
  let es :=
    if mode_eqb (mode s) SelectFolder || (match exts with [] => true | _ => false end)
    then ListDirectory fs (currentPath s) (sortOrder s)
    else ListDirectoryFiltered fs (currentPath s) exts (sortOrder s) in
  let es' := if showHiddenFiles s then es else filter (fun e => negb (is_hidden e)) es in
  set_selectedIndex (-1) (set_entries es' s).

(** [FileSystemHelper::IsDirectory]: the throwing overload
    [std::filesystem::is_directory(const path&)], i.e.
    [is_directory(status(p))], where [status] throws [filesystem_error]
    whenever the file type cannot be determined and the error is not
    "not found". *)
Definition IsDirectory (fs : FileSystem) (p : string) : result bool :=
  match fs_status fs p with
  | StatDirectory => Normal true
  | StatOther | StatNotFound => Normal false
  | StatError => Raised filesystem_error
  end.

Definition NavigateTo (fs : FileSystem) (p : string) (s : Session) : result Session :=
  match IsDirectory fs p with
  | Normal true =>
      Normal (RefreshDirectory fs (set_selectedIndex (-1) (set_currentPath p s)))
  | Normal false => Normal s
  | Raised e => Raised e
  end.

(** [strncpy(m_filenameBuffer, name, sizeof - 1)]: at most 255 characters. *)
Definition filename_copy (n : string) : string := take 255 n.

Definition SelectEntry (i : Z) (s : Session) : Session :=
  match entry_at (entries s) i with
  | None => set_selectedIndex (-1) s
  | Some e =>
      let s1 := set_selectedIndex i s in
      if negb (isDirectory e) && negb (mode_eqb (mode s) SelectFolder)
      then set_filenameBuffer (filename_copy (name e)) s1
      else s1
  end.

Definition ActivateEntry (fs : FileSystem) (i : Z) (s : Session) : result Session :=
  match entry_at (entries s) i with
  | None => Normal s
  | Some e =>
      if isDirectory e then NavigateTo fs (path e) s
      else if mode_eqb (mode s) Open then Normal (set_selected_result (path e) s)
      else Normal s
  end.

Definition IsValidSelection (s : Session) : bool :=
  match mode s with
  | Open =>
      match entry_at (entries s) (selectedIndex s) with
      | Some e => negb (isDirectory e)
      | None => false
      end
  | Save => negb (String.eqb (filenameBuffer s) EmptyString)
  | SelectFolder => true
  end.

Definition BuildFullPath (s : Session) : string :=
  match mode s with
  | Open =>
      match entry_at (entries s) (selectedIndex s) with
      | Some e => path e
      | None => EmptyString
      end
  | Save =>
      let filename := filenameBuffer s in
      let filename :=
        match filters s with
        | [] => filename
        | _ =>
            match GetCurrentExtensions s with
            | [] => filename
            | (ext0 :: _) as exts =>
                let currentExt := GetExtension filename in
                let hasValidExt := existsb (String.eqb currentExt) exts in
                if hasValidExt then filename else String.append filename ext0
            end
        end in
      CombinePath (currentPath s) filename
  | SelectFolder => currentPath s
  end.

(** The inner [for j] loop of [FindMatchingEntryIndex]: the first
    [strlen(prefix)] characters agree after [tolower]. *)
Fixpoint chars_match (prefix nm : string) : bool :=
  match prefix, nm with
  | EmptyString, _ => true
  | String c1 p', String c2 n' => Ascii.eqb (tolower c2) (tolower c1) && chars_match p' n'
  | String _ _, EmptyString => false
  end.

Fixpoint find_matching_from (prefix : string) (i : Z) (es : list FileEntry) : Z :=
  match es with
  | [] => (-1)%Z
  | e :: es' =>
      if (String.length prefix <=? String.length (name e)) && chars_match prefix (name e)
      then i
      else find_matching_from prefix (i + 1) es'
  end.

Definition FindMatchingEntryIndex (prefix : string) (s : Session) : Z :=
  match prefix with
  | EmptyString => (-1)%Z
  | _ => find_matching_from prefix 0 (entries s)
  end.

(** The filename input of [RenderFilenameAndFilter]: [ImGui::InputText]
    leaves [newBuffer] in [m_filenameBuffer] and reports [edited]. *)
Definition FilenameInput (newBuffer : string) (edited : bool) (s : Session) : Session :=
  let s1 := set_filenameBuffer newBuffer s in
  if edited && mode_eqb (mode s1) Open && negb (String.eqb newBuffer EmptyString) then
    let matchIndex := FindMatchingEntryIndex newBuffer s1 in
    if (0 <=? matchIndex)%Z
    then set_pendingScrollToIndex matchIndex (set_selectedIndex matchIndex s1)
    else s1
  else s1.

(* ------------------------------------------------------------------ *)
(** ** UpdateSizing (FileBrowserDialog.cpp) *)

Section Sizing.
(** [float] values and the [float] product, left abstract: every metric
    below is one such product, exactly as in the source. *)
Variable float : Type.
Variable fmul : float -> float -> float.
(** The literals [0.9f] and [0.85f]. *)
Variables f0_9 f0_85 : float.

(** A table of 1.0x base constants ([BaseSize::...] or
    [BaseSize::TOUCH_...]). *)
Record BaseTable := mkBase {
  b_rowHeight : float; b_buttonHeight : float; b_buttonWidth : float;
  b_iconSize : float; b_fontSize : float; b_pathBarHeight : float;
  b_inputHeight : float; b_dialogWidth : float; b_dialogHeight : float
}.

Record Metrics := mkMetrics {
  m_rowHeight : float; m_buttonHeight : float; m_buttonWidth : float;
  m_iconSize : float; m_fontSize : float; m_pathBarHeight : float;
  m_inputHeight : float; m_dialogWidth : float; m_dialogHeight : float
}.

(** [UpdateSizing] with [scale = GetScale()] and the host's
    [ImGui::GetIO().DisplaySize = (displayX, displayY)]. The touch table
    has no dialog size entries in the source; its [b_dialogWidth] and
    [b_dialogHeight] are never read. *)
Definition UpdateSizing (desktop touch : BaseTable) (touchMode : bool)
    (scale displayX displayY : float) : Metrics :=
  if touchMode then
    {| m_rowHeight := fmul (b_rowHeight touch) scale;
       m_buttonHeight := fmul (b_buttonHeight touch) scale;
       m_buttonWidth := fmul (b_buttonWidth touch) scale;
       m_iconSize := fmul (b_iconSize touch) scale;
       m_fontSize := fmul (b_fontSize touch) scale;
       m_pathBarHeight := fmul (b_pathBarHeight touch) scale;
       m_inputHeight := fmul (b_inputHeight touch) scale;
       m_dialogWidth := fmul displayX f0_9;
       m_dialogHeight := fmul displayY f0_85 |}
  else
    {| m_rowHeight := fmul (b_rowHeight desktop) scale;
       m_buttonHeight := fmul (b_buttonHeight desktop) scale;
       m_buttonWidth := fmul (b_buttonWidth desktop) scale;
       m_iconSize := fmul (b_iconSize desktop) scale;
       m_fontSize := fmul (b_fontSize desktop) scale;
       m_pathBarHeight := fmul (b_pathBarHeight desktop) scale;
       m_inputHeight := fmul (b_inputHeight desktop) scale;
       m_dialogWidth := fmul (b_dialogWidth desktop) scale;
       m_dialogHeight := fmul (b_dialogHeight desktop) scale |}.

(** Every metric of a base table scaled by [s]. *)
Definition scaled (b : BaseTable) (s : float) : Metrics :=
  {| m_rowHeight := fmul (b_rowHeight b) s;
     m_buttonHeight := fmul (b_buttonHeight b) s;
     m_buttonWidth := fmul (b_buttonWidth b) s;
     m_iconSize := fmul (b_iconSize b) s;
     m_fontSize := fmul (b_fontSize b) s;
     m_pathBarHeight := fmul (b_pathBarHeight b) s;
     m_inputHeight := fmul (b_inputHeight b) s;
     m_dialogWidth := fmul (b_dialogWidth b) s;
     m_dialogHeight := fmul (b_dialogHeight b) s |}.
End Sizing.

Arguments UpdateSizing {float} fmul f0_9 f0_85 desktop touch touchMode scale displayX displayY.
Arguments scaled {float} fmul b s.

(* ------------------------------------------------------------------ *)
(** ** ConfirmationDialog *)

Module Confirm.

(** [DialogButton] is an [enum class] over [int]; its values are bit masks
    and combinations of them ([OkCancel], [YesNo], ...) are values too. *)
Definition BtnNone := 0%Z.
Definition BtnOk := 1%Z.
Definition BtnCancel := 2%Z.
Definition BtnYes := 4%Z.
Definition BtnNo := 8%Z.
Definition BtnSave := 16%Z.
Definition BtnDontSave := 32%Z.
Definition BtnRetry := 64%Z.
Definition BtnOkCancel := Z.lor BtnOk BtnCancel.
Definition BtnYesNo := Z.lor BtnYes BtnNo.
Definition BtnYesNoCancel := Z.lor (Z.lor BtnYes BtnNo) BtnCancel.

Definition HasButton (buttons test : Z) : bool :=
  negb (Z.eqb (Z.land buttons test) 0).

Inductive DialogResult := RNone | ROk | RCancel | RYes | RNo | RSave | RDontSave | RRetry.

Definition result_eqb (a b : DialogResult) : bool :=
  match a, b with
  | RNone, RNone | ROk, ROk | RCancel, RCancel | RYes, RYes | RNo, RNo
  | RSave, RSave | RDontSave, RDontSave | RRetry, RRetry => true
  | _, _ => false
  end.

(** The members read and written by [Show], [Render] and
    [HandleButtonClick]; [notified] records the calls of [NotifyResult]
    (the [onResult] signal and callback), oldest first. *)
Record CState := mkCState {
  isShown : bool;
  c_result : DialogResult;
  shouldOpen : bool;
  buttons : Z;
  defaultButton : Z;
  notified : list DialogResult
}.

Definition Show (btns dflt : Z) (s : CState) : CState :=
  {| isShown := true; c_result := RNone; shouldOpen := true;
     buttons := btns; defaultButton := dflt; notified := notified s |}.

Definition button_result (b : Z) : DialogResult :=
  if Z.eqb b BtnOk then ROk
  else if Z.eqb b BtnCancel then RCancel
  else if Z.eqb b BtnYes then RYes
  else if Z.eqb b BtnNo then RNo
  else if Z.eqb b BtnSave then RSave
  else if Z.eqb b BtnDontSave then RDontSave
  else if Z.eqb b BtnRetry then RRetry
  else RNone.

Definition HandleButtonClick (b : Z) (s : CState) : CState :=
  let r := button_result b in
  if result_eqb r RNone then
    {| isShown := isShown s; c_result := r; shouldOpen := shouldOpen s;
       buttons := buttons s; defaultButton := defaultButton s; notified := notified s |}
  else
    {| isShown := false; c_result := r; shouldOpen := shouldOpen s;
       buttons := buttons s; defaultButton := defaultButton s;
       notified := notified s ++ [r] |}.

(** What ImGui reports during one frame: whether [BeginPopupModal] shows
    the popup, which button (if any) was clicked, and the key presses. *)
Record Frame := mkFrame {
  popupOpen : bool;
  clicked : option Z;
  escapePressed : bool;
  enterPressed : bool
}.

(** [RenderButtons]: the buttons drawn, in drawing order; a click can only
    land on one of them. *)
Definition rendered_order : list Z :=
  [BtnSave; BtnOk; BtnYes; BtnRetry; BtnNo; BtnDontSave; BtnCancel].

Definition RenderButtons (f : Frame) (s : CState) : CState :=
  match clicked f with
  | Some b =>
      if existsb (Z.eqb b) rendered_order && HasButton (buttons s) b
      then HandleButtonClick b s else s
  | None => s
  end.

Definition clear_shouldOpen (s : CState) : CState :=
  {| isShown := isShown s; c_result := c_result s; shouldOpen := false;
     buttons := buttons s; defaultButton := defaultButton s; notified := notified s |}.

Definition hide (s : CState) : CState :=
  {| isShown := false; c_result := c_result s; shouldOpen := shouldOpen s;
     buttons := buttons s; defaultButton := defaultButton s; notified := notified s |}.

Definition Render (f : Frame) (s : CState) : DialogResult * CState :=
  if negb (isShown s) then (RNone, s) else
  let s := clear_shouldOpen s in
  if popupOpen f then
    let s := RenderButtons f s in
    let s :=
      if escapePressed f then
        if HasButton (buttons s) BtnCancel then HandleButtonClick BtnCancel s
        else if HasButton (buttons s) BtnNo then HandleButtonClick BtnNo s
        else s
      else s in
    let s := if enterPressed f then HandleButtonClick (defaultButton s) s else s in
    (c_result s, s)
  else
    let s := hide s in (c_result s, s).

End Confirm.

(* ------------------------------------------------------------------ *)
(** ** Session operations *)

Definition set_sortOrder (o : SortOrder) (s : Session) : Session :=
  {| mode := mode s; filters := filters s; showHiddenFiles := showHiddenFiles s;
     selectedFilterIndex := selectedFilterIndex s; currentPath := currentPath s;
     entries := entries s; selectedIndex := selectedIndex s;
     filenameBuffer := filenameBuffer s; pendingScrollToIndex := pendingScrollToIndex s;
     sortOrder := o; isOpen := isOpen s; browserResult := browserResult s;
     selectedPath := selectedPath s |}.

Definition set_selectedFilterIndex (i : Z) (s : Session) : Session :=
  {| mode := mode s; filters := filters s; showHiddenFiles := showHiddenFiles s;
     selectedFilterIndex := i; currentPath := currentPath s;
     entries := entries s; selectedIndex := selectedIndex s;
     filenameBuffer := filenameBuffer s; pendingScrollToIndex := pendingScrollToIndex s;
     sortOrder := sortOrder s; isOpen := isOpen s; browserResult := browserResult s;
     selectedPath := selectedPath s |}.

(** Every way the dialog changes [m_entries] or [m_selectedIndex] while a
    session is open: the Refresh button and the end of [Open]
    ([RefreshDirectory]); the sort and filter combos (set the member, then
    [RefreshDirectory]); navigation (Home, drives, breadcrumbs, the Up button
    and directory activation all go through [NavigateTo]); a row click
    ([SelectEntry]); the deferred activation ([ActivateEntry]); and the
    filename input with its incremental search. *)
Inductive Op :=
  | OpRefresh
  | OpSetSortOrder (o : SortOrder)
  | OpSetFilter (i : Z)
  | OpNavigateTo (p : string)
  | OpSelectEntry (i : Z)
  | OpActivateEntry (i : Z)
  | OpFilenameInput (newBuffer : string) (edited : bool).

Definition step (fs : FileSystem) (op : Op) (s : Session) : result Session :=
  match op with
  | OpRefresh => Normal (RefreshDirectory fs s)
  | OpSetSortOrder o => Normal (RefreshDirectory fs (set_sortOrder o s))
  | OpSetFilter i => Normal (RefreshDirectory fs (set_selectedFilterIndex i s))
  | OpNavigateTo p => NavigateTo fs p s
  | OpSelectEntry i => Normal (SelectEntry i s)
  | OpActivateEntry i => ActivateEntry fs i s
  | OpFilenameInput b ed => Normal (FilenameInput b ed s)
  end.

(** The session invariant on [m_selectedIndex]. *)
Definition selection_ok (s : Session) : Prop :=
  selectedIndex s = (-1)%Z \/
  (0 <= selectedIndex s < Z.of_nat (List.length (entries s)))%Z.

(* ------------------------------------------------------------------ *)
(** ** Statements in the words of the specification *)

(** "the name starts, case-insensitively, with the typed text". *)
Definition ci_prefix (typed nm : string) : bool :=
  starts_with (lower typed) (lower nm).

(** "append the first listed extension only if the list is non-empty and
    the typed name's extension equals none of them". *)
Definition spec_save_name (exts : list string) (fn : string) : string :=
  match exts with
  | [] => fn
  | e0 :: _ =>
      if forallb (fun e => negb (String.eqb (GetExtension fn) e)) exts
      then String.append fn e0 else fn
  end.

(** "every directory appears before every file". *)
Fixpoint dirs_before_files (l : list FileEntry) : bool :=
  match l with
  | [] => true
  | e :: l' =>
      if isDirectory e then dirs_before_files l'
      else forallb (fun x => negb (isDirectory x)) l'
  end.

(* ------------------------------------------------------------------ *)
(** ** Concrete inputs *)

Definition file_a : FileEntry := mkEntry "a" "/d/a" false 10 0.
Definition dir_b : FileEntry := mkEntry "b" "/d/b" true 0 0.

(** A directory "/d" whose iterator yields the file "a" before the
    directory "b" (directory iteration order is unspecified). *)
Definition fs_d : FileSystem :=
  mkFS (fun p => if String.eqb p "/d" then Some [file_a; dir_b] else None)
       (fun p => if String.eqb p "/d" then StatDirectory else StatNotFound).

Definition session0 (m : Mode) (fl : list FileFilter) (cur fn : string)
    (es : list FileEntry) (sel : Z) : Session :=
  {| mode := m; filters := fl; showHiddenFiles := false; selectedFilterIndex := 0;
     currentPath := cur; entries := es; selectedIndex := sel; filenameBuffer := fn;
     pendingScrollToIndex := -1; sortOrder := NameAsc; isOpen := true;
     browserResult := ResNone; selectedPath := EmptyString |}.

(** A path whose last component is 256 characters long: [stat] fails with
    ENAMETOOLONG (NAME_MAX is 255), which [status] does not treat as
    "not found". *)
Definition long_path : string :=
  String.append "/tmp/" (String.concat "" (repeat "a"%string 256)).

Definition fs_long : FileSystem :=
  mkFS (fun _ => None)
       (fun p => if (255 <? String.length (path_filename p))%nat then StatError
                 else StatNotFound).

(* ------------------------------------------------------------------ *)
(** ** More of FileSystemHelper, the path bar and the settings handler *)

(** [FileSystemHelper::GetFilename]: [fs::path(p).filename().string()]. *)
Definition GetFilename (p : string) : string := path_filename p.

(** The splitting loop of [RenderPathBar] (POSIX branch): while
    [remaining.find_first_of("/\\")] finds a separator, the non-empty text
    before it is a part. Each round drops at least one character, so
    [length remaining + 1] rounds of fuel suffice. *)
Fixpoint split_parts (fuel : nat) (remaining : string) : list string :=
  match fuel with
  | O => []
  | S fuel' =>
      match find_first_of (String "/" (String "\" EmptyString)) remaining with
      | Some pos =>
          let part := take pos remaining in
          let rest := split_parts fuel' (drop (pos + 1) remaining) in
          if String.eqb part EmptyString then rest else part :: rest
      | None =>
          if String.eqb remaining EmptyString then [] else [remaining]
      end
  end.

Definition path_parts (currentPath : string) : list string :=
  match currentPath with
  | String "/" rest => "/"%string :: split_parts (S (String.length rest)) rest
  | _ => split_parts (S (String.length currentPath)) currentPath
  end.

(** The [buildPath] loop of [RenderPathBar]: the path each breadcrumb
    navigates to. [first] marks [i == 0]. *)
Fixpoint crumb_targets (first : bool) (buildPath : string) (parts : list string)
    : list string :=
  match parts with
  | [] => []
  | part :: parts' =>
      let buildPath :=
        if first && String.eqb part "/"%string then "/"%string
        else String.append buildPath (String.append part "/"%string) in
      buildPath :: crumb_targets false buildPath parts'
  end.

(** The breadcrumbs of [RenderPathBar]: label and target of each button. *)
Definition breadcrumbs (currentPath : string) : list (string * string) :=
  let parts := path_parts currentPath in
  combine parts (crumb_targets true EmptyString parts).

(** [SettingsHandler_ReadOpen]: only the entry "Data" is accepted. *)
Definition SettingsHandler_ReadOpen (entryName : string) : bool :=
  String.eqb entryName "Data".

(** [SettingsHandler_ReadLine]: [entry] is whether [ReadOpen] accepted the
    section; a line starting with "LastPath=" replaces [g_lastPath]. *)
Definition SettingsHandler_ReadLine (entry : bool) (line : string) (g_lastPath : string)
    : string :=
  if entry && starts_with "LastPath="%string line then drop 9 line else g_lastPath.

Definition newline : string := String (ascii_of_nat 10) EmptyString.

(** [SettingsHandler_WriteAll]: the text appended to the ini buffer. *)
Definition SettingsHandler_WriteAll (typeName g_lastPath : string) : string :=
  if String.eqb g_lastPath EmptyString then EmptyString
  else String.concat EmptyString
         ["["; typeName; "][Data]"; newline; "LastPath="; g_lastPath; newline; newline]%string.

(** How ImGui's ini loader cuts a buffer into lines: a line ends at '\n'
    or '\r'; empty lines are skipped. *)
Definition is_eol (c : ascii) : bool :=
  Ascii.eqb c (ascii_of_nat 10) || Ascii.eqb c (ascii_of_nat 13).

Fixpoint split_lines_acc (cur : string) (s : string) : list string :=
  match s with
  | EmptyString => if String.eqb cur EmptyString then [] else [cur]
  | String c s' =>
      if is_eol c then
        (if String.eqb cur EmptyString then [] else [cur]) ++ split_lines_acc EmptyString s'
      else split_lines_acc (String.append cur (String c EmptyString)) s'
  end.

Definition ini_lines (s : string) : list string := split_lines_acc EmptyString s.

Definition no_eol (s : string) : bool :=
  forallb (fun c => negb (is_eol c)) (list_ascii_of_string s).

(* ------------------------------------------------------------------ *)
(** ** Opening a session and confirming the choice *)

Definition rbind {A B : Type} (m : result A) (k : A -> result B) : result B :=
  match m with
  | Normal a => k a
  | Raised e => Raised e
  end.

(** [FileSystemHelper::Exists]: the throwing [std::filesystem::exists]. *)
Definition Exists (fs : FileSystem) (p : string) : result bool :=
  match fs_status fs p with
  | StatError => Raised filesystem_error
  | StatNotFound => Normal false
  | StatDirectory | StatOther => Normal true
  end.

(** [FileSystemHelper::IsFile]: the throwing
    [std::filesystem::is_regular_file]; [isRegular p] tells, for a path that
    exists and is not a directory, whether it is a regular file. *)
Definition IsFile (fs : FileSystem) (isRegular : string -> bool) (p : string)
    : result bool :=
  match fs_status fs p with
  | StatError => Raised filesystem_error
  | StatOther => Normal (isRegular p)
  | StatDirectory | StatNotFound => Normal false
  end.

(** [GetHomeDirectory] (POSIX): [$HOME], or "/" when unset. *)
Definition GetHomeDirectory (HOME : option string) : string :=
  match HOME with Some h => h | None => "/"%string end.

Definition GetDocumentsDirectory (fs : FileSystem) (HOME : option string) : result string :=
  let home := GetHomeDirectory HOME in
  let docs := String.append home "/Documents"%string in
  rbind (Exists fs docs) (fun ex => Normal (if ex then docs else home)).

(** The fields of [DialogConfig] that [Open] copies into the session. *)
Record DialogConfig := mkConfig {
  cfg_mode : Mode;
  cfg_filters : list FileFilter;
  cfg_showHiddenFiles : bool;
  cfg_selectedFilterIndex : Z;
  cfg_initialPath : string;
  cfg_initialFilename : string
}.

(** [!path.empty() && FileSystemHelper::IsDirectory(path)]. *)
Definition usable_dir (fs : FileSystem) (p : string) : result bool :=
  if String.eqb p EmptyString then Normal false else IsDirectory fs p.

(** [FileBrowserDialog::Open]: the start directory is [initialPath] if it is
    a directory, else the persisted [lastPath] if it is one, else the
    Documents directory; then the listing is loaded. *)
Definition OpenSession (fs : FileSystem) (HOME : option string) (lastPath : string)
    (cfg : DialogConfig) : result Session :=
  rbind (usable_dir fs (cfg_initialPath cfg)) (fun useInitial =>
  rbind (if useInitial then Normal (cfg_initialPath cfg) else
         rbind (usable_dir fs lastPath) (fun useLast =>
           if useLast then Normal lastPath else GetDocumentsDirectory fs HOME))
  (fun start =>
    Normal (RefreshDirectory fs
      {| mode := cfg_mode cfg; filters := cfg_filters cfg;
         showHiddenFiles := cfg_showHiddenFiles cfg;
         selectedFilterIndex := cfg_selectedFilterIndex cfg;
         currentPath := start; entries := []; selectedIndex := -1;
         filenameBuffer := filename_copy (cfg_initialFilename cfg);
         pendingScrollToIndex := -1; sortOrder := NameAsc; isOpen := true;
         browserResult := ResNone; selectedPath := EmptyString |}))).

(** The dialog with its overwrite-confirmation popup state, the persisted
    [g_lastPath] of Config.cpp, and the paths handed to
    [NotifyFileSelected] so far (latest first). *)
Record Dialog := mkDialog {
  dsess : Session;
  showOverwriteConfirm : bool;
  overwritePath : string;
  g_lastPath : string;
  notified : list string
}.

(** [m_selectedPath = p; m_result = Selected; m_isOpen = false;
    SetLastPath(m_currentPath); NotifyFileSelected(m_selectedPath)]. *)
Definition finish_selected (p : string) (showConfirm : bool) (d : Dialog) : Dialog :=
  mkDialog (set_selected_result p (dsess d)) showConfirm (overwritePath d)
           (currentPath (dsess d)) (p :: notified d).

(** The OK/Open/Save/Select button of [RenderButtons] when clicked (it is
    disabled, so a click does nothing, unless [IsValidSelection]). *)
Definition OkClick (fs : FileSystem) (isRegular : string -> bool) (d : Dialog)
    : result Dialog :=
  let s := dsess d in
  if negb (IsValidSelection s) then Normal d else
  let fullPath := BuildFullPath s in
  let select := Normal (finish_selected fullPath (showOverwriteConfirm d) d) in
  if mode_eqb (mode s) Save then
    rbind (Exists fs fullPath) (fun ex =>
      if ex then
        rbind (IsFile fs isRegular fullPath) (fun isf =>
          if isf then Normal (mkDialog s true fullPath (g_lastPath d) (notified d))
          else select)
      else select)
  else select.

(** The "Yes" and "No" buttons of [RenderOverwriteConfirmPopup], which is
    drawn only while [m_showOverwriteConfirm] is set. *)
Definition OverwriteYes (d : Dialog) : Dialog :=
  if showOverwriteConfirm d then finish_selected (overwritePath d) false d else d.

Definition OverwriteNo (d : Dialog) : Dialog :=
  if showOverwriteConfirm d
  then mkDialog (dsess d) false (overwritePath d) (g_lastPath d) (notified d)
  else d.

(** Fixtures for the further properties. *)

Definition no_sep (c : string) : Prop :=
  ~ In "/"%char (list_ascii_of_string c) /\ ~ In "\"%char (list_ascii_of_string c).

(** The path a breadcrumb leads to: the components up to it, each
    followed by '/'. *)
Definition crumb_suffix (cs : list string) : string :=
  fold_right (fun c acc => String.append c (String "/" acc)) EmptyString cs.

Definition dialog0 (s : Session) : Dialog := mkDialog s false EmptyString EmptyString [].

Definition fs_save : FileSystem :=
  mkFS (fun _ => None)
       (fun p => if String.eqb p "/d/a.txt" then StatOther else StatNotFound).

Definition cfg0 (init : string) : DialogConfig := mkConfig Open [] false 0 init EmptyString.

(* ================================================================== *)
(** * Properties *)

(** ** Listing order *)

(** Sanity checks of the listing engine on "/d". *)
Example ListDirectory_NameAsc_d :
  ListDirectory fs_d "/d" NameAsc = [dir_b; file_a].
Proof. reflexivity. Qed.

Example ListDirectory_SizeDesc_d :
  ListDirectory fs_d "/d" SizeDesc = [dir_b; file_a].
Proof. reflexivity. Qed.

(** The NameDesc comparator of [SortEntries] holds for no pair made of a
    directory and a file, in either order: the two groups are equivalent
    under it. *)
Lemma NameDesc_comparator_ignores_kind (a b : FileEntry) :
  isDirectory a <> isDirectory b -> sort_comparator NameDesc a b = false.
Proof.
  intros H. unfold sort_comparator, compareName, dir_ne, dir_gt.
  destruct (isDirectory a), (isDirectory b); simpl; congruence.
Qed.

(** C1 (code_bug): claim: for every sort order, every directory comes
    before every file in the listing. With NameDesc, a directory whose
    iterator yields the file "a" before the directory "b" is listed as
    [file_a; dir_b]: a file precedes a directory. *)
Theorem C1_NameDesc_lists_file_before_directory :
  ListDirectory fs_d "/d" NameDesc = [file_a; dir_b] /\
  dirs_before_files (ListDirectory fs_d "/d"%string NameDesc) = false.
Proof. split; reflexivity. Qed.

(** ** Filter parsing *)

(** C2 (code_bug): claim: [GetExtensionList] gives [".jml"; ".jmd"] for
    "*.jml;*.jmd" and the empty list for "*.*". The first holds; "*.*"
    gives the one-element list [".*"]. *)
Theorem C2_GetExtensionList_wildcard_all :
  GetExtensionList (mkFilter "JML" "*.jml;*.jmd") = [".jml"; ".jmd"]%string /\
  GetExtensionList (mkFilter "All Files" "*.*") = [".*"]%string.
Proof. split; reflexivity. Qed.

(** What the [".*"] list does at the call sites: an "All Files" filter
    lists no files, and Save appends ".*". *)
Example All_Files_filter_hides_files :
  entries (RefreshDirectory fs_d
             (session0 Open [mkFilter "All Files" "*.*"] "/d" "" [] (-1)))
  = [dir_b].
Proof. reflexivity. Qed.

Example All_Files_filter_save_appends :
  BuildFullPath (session0 Save [mkFilter "All Files" "*.*"] "/tmp" "notes.txt" [] (-1))
  = "/tmp/notes.txt.*"%string.
Proof. reflexivity. Qed.

(** ** Navigation *)

(** C5 (code_bug): claim: NavigateTo on a path that is not an existing
    directory changes nothing and signals no error. On [long_path], whose
    last component exceeds NAME_MAX, [IsDirectory] throws and the
    [filesystem_error] escapes [NavigateTo]. *)
Theorem C5_NavigateTo_long_path_throws :
  fs_status fs_long long_path = StatError /\
  NavigateTo fs_long long_path (session0 Open [] "/tmp" "" [] (-1))
  = Raised filesystem_error.
Proof. split; reflexivity. Qed.

(** ** Layout metrics *)

(** C7: desktop metrics are the desktop base constants times the scale,
    dialog size included; touch metrics are the touch base constants times
    the scale, and the touch dialog size is 0.9f and 0.85f of the display
    size whatever the base tables are. *)
Theorem C7_UpdateSizing_scaled {float : Type} (fmul : float -> float -> float)
    (f0_9 f0_85 : float) (desktop touch : BaseTable float) (s dx dy : float) :
  UpdateSizing fmul f0_9 f0_85 desktop touch false s dx dy = scaled fmul desktop s /\
  (let m := UpdateSizing fmul f0_9 f0_85 desktop touch true s dx dy in
   m_rowHeight float m = fmul (b_rowHeight float touch) s /\
   m_buttonHeight float m = fmul (b_buttonHeight float touch) s /\
   m_buttonWidth float m = fmul (b_buttonWidth float touch) s /\
   m_iconSize float m = fmul (b_iconSize float touch) s /\
   m_fontSize float m = fmul (b_fontSize float touch) s /\
   m_pathBarHeight float m = fmul (b_pathBarHeight float touch) s /\
   m_inputHeight float m = fmul (b_inputHeight float touch) s /\
   m_dialogWidth float m = fmul dx f0_9 /\
   m_dialogHeight float m = fmul dy f0_85) /\
  (forall desktop' touch' : BaseTable float,
     let m := UpdateSizing fmul f0_9 f0_85 desktop touch true s dx dy in
     let m' := UpdateSizing fmul f0_9 f0_85 desktop' touch' true s dx dy in
     m_dialogWidth float m' = m_dialogWidth float m /\
     m_dialogHeight float m' = m_dialogHeight float m).
Proof.
  split; [reflexivity|].
  split; [repeat split | intros; split; reflexivity].
Qed.

(** ** Confirmation dialog *)

Module ConfirmProps.
Import Confirm.

Definition hidden0 : CState := mkCState false RNone false 0 0 [].

(** A frame with the popup open, no button clicked and Enter pressed. *)
Definition enter_frame : Frame := mkFrame true None false true.

Ltac single_button_case :=
  simpl; split; [reflexivity|]; split;
  [ intros _; split; [discriminate | split; reflexivity]
  | intros Hn; exfalso; apply Hn; unfold rendered_order; simpl; tauto ].

(** Once hidden, [Render] returns None and changes nothing. *)
Lemma Render_hidden (f : Frame) (s : CState) :
  isShown s = false -> Render f s = (RNone, s).
Proof. intros H. unfold Render. rewrite H. reflexivity. Qed.

(** [HandleButtonClick] hides the dialog exactly when it records a
    result. *)
Lemma HandleButtonClick_hides (b : Z) (s : CState) :
  button_result b <> RNone ->
  isShown (HandleButtonClick b s) = false /\
  c_result (HandleButtonClick b s) = button_result b.
Proof.
  intros H. unfold HandleButtonClick.
  destruct (button_result b); simpl; try congruence; split; reflexivity.
Qed.

(** C6 (code_bug): claim: the terminal result is delivered exactly once
    per show-cycle. With the default configuration (OK/Cancel, default OK),
    a frame in which Escape and Enter are both pressed notifies Cancel and
    then OK and returns OK; later frames return None. *)
Theorem C6_escape_and_enter_notify_twice :
  let s0 := Show BtnOkCancel BtnOk hidden0 in
  let '(r, s1) := Render (mkFrame true None true true) s0 in
  r = ROk /\ isShown s1 = false /\ notified s1 = [RCancel; ROk] /\
  (forall f, Render f s1 = (RNone, s1)).
Proof.
  simpl. split; [reflexivity|]. split; [reflexivity|]. split; [reflexivity|].
  intros f. apply Render_hidden. reflexivity.
Qed.

(** C10 (corrected), counterexample: a default button that is not None but
    a combined value ([YesNo]) leaves the dialog open when Enter is pressed. *)
Lemma C10_combined_default_stays_open :
  let '(r, s1) := Render enter_frame (Show BtnOkCancel BtnYesNo hidden0) in
  BtnYesNo <> BtnNone /\ r = RNone /\ isShown s1 = true.
Proof. simpl. split; [discriminate|]. split; reflexivity. Qed.

(** C10 (corrected): Enter while shown delivers the outcome of the default
    button whenever it is one of the seven single buttons, whether or not
    that button is enabled; any other default value (None or a combination
    of buttons) leaves the dialog open and delivers nothing. *)
Theorem C10_enter_delivers_default (s : CState) :
  isShown s = true ->
  let '(r, s1) := Render enter_frame s in
  r = button_result (defaultButton s) /\
  (In (defaultButton s) rendered_order ->
     r <> RNone /\ isShown s1 = false /\ notified s1 = notified s ++ [r]) /\
  (~ In (defaultButton s) rendered_order ->
     r = RNone /\ isShown s1 = true /\ notified s1 = notified s).
Proof.
  destruct s as [sh res so btns dflt nt]; simpl. intros ->.
  unfold Render; simpl.
  unfold HandleButtonClick, button_result; simpl.
  destruct (Z.eqb_spec dflt BtnOk) as [->|H1]; [single_button_case|].
  destruct (Z.eqb_spec dflt BtnCancel) as [->|H2]; [single_button_case|].
  destruct (Z.eqb_spec dflt BtnYes) as [->|H3]; [single_button_case|].
  destruct (Z.eqb_spec dflt BtnNo) as [->|H4]; [single_button_case|].
  destruct (Z.eqb_spec dflt BtnSave) as [->|H5]; [single_button_case|].
  destruct (Z.eqb_spec dflt BtnDontSave) as [->|H6]; [single_button_case|].
  destruct (Z.eqb_spec dflt BtnRetry) as [->|H7]; [single_button_case|].
  simpl. split; [reflexivity|]. split.
  - intros Hin. exfalso. unfold rendered_order in Hin; simpl in Hin.
    intuition congruence.
  - intros _. split; [reflexivity|]. split; reflexivity.
Qed.

Lemma C10_enter_delivers_default_witness :
  isShown (Show BtnOkCancel BtnNo hidden0) = true /\
  fst (Render enter_frame (Show BtnOkCancel BtnNo hidden0)) = RNo.
Proof.
  split; [reflexivity|].
  pose proof (C10_enter_delivers_default (Show BtnOkCancel BtnNo hidden0) eq_refl) as H.
  destruct (Render enter_frame (Show BtnOkCancel BtnNo hidden0)) as [r s1].
  destruct H as [Hr _]. simpl. rewrite Hr. reflexivity.
Defined.

End ConfirmProps.

(** ** Resolving the chosen path *)

Lemma existsb_eqb_forallb (x : string) (l : list string) :
  existsb (String.eqb x) l = negb (forallb (fun e => negb (String.eqb x e)) l).
Proof.
  induction l as [|y l IH]; simpl; [reflexivity|].
  rewrite IH. destruct (String.eqb x y); reflexivity.
Qed.

Definition report_session (fn : string) : Session :=
  session0 Save [mkFilter "Text" "*.txt;*.md"] "/tmp" fn [] (-1).

(** C3: in Save mode [BuildFullPath] combines [currentPath] with the typed
    name, to which the first extension of the active filter is appended
    exactly when that filter lists extensions and the name's lowercased
    extension is none of them. With the filter "*.txt;*.md" (extensions
    [".txt"; ".md"]), "report" and "report.txt" both give "/tmp/report.txt". *)
Theorem C3_BuildFullPath_save :
  (forall s : Session, mode s = Save ->
     BuildFullPath s =
     CombinePath (currentPath s) (spec_save_name (GetCurrentExtensions s) (filenameBuffer s))) /\
  GetCurrentExtensions (report_session "report") = [".txt"; ".md"]%string /\
  BuildFullPath (report_session "report") = "/tmp/report.txt"%string /\
  BuildFullPath (report_session "report.txt") = "/tmp/report.txt"%string.
Proof.
  split; [|split; [|split]]; try reflexivity.
  intros s Hm. unfold BuildFullPath. rewrite Hm.
  destruct (filters s) as [|f fl] eqn:Ef.
  - unfold GetCurrentExtensions. rewrite Ef. reflexivity.
  - destruct (GetCurrentExtensions s) as [|e0 es]; [reflexivity|].
    unfold spec_save_name. rewrite existsb_eqb_forallb.
    destruct (forallb _ _); reflexivity.
Qed.

Lemma C3_BuildFullPath_save_witness :
  mode (report_session "report.md") = Save /\
  BuildFullPath (report_session "report.md") = "/tmp/report.md"%string.
Proof.
  split; [reflexivity|].
  rewrite (proj1 C3_BuildFullPath_save (report_session "report.md") eq_refl).
  vm_compute. reflexivity.
Defined.

(** ** Validity of the current selection *)

Lemma entry_at_spec (es : list FileEntry) (i : Z) :
  entry_at es i =
  if (0 <=? i)%Z then nth_error es (Z.to_nat i) else None.
Proof.
  unfold entry_at. destruct (0 <=? i)%Z eqn:H0; simpl; [|reflexivity].
  destruct (i <? Z.of_nat (List.length es))%Z eqn:H1; [reflexivity|].
  symmetry. apply nth_error_None. apply Z.leb_le in H0. apply Z.ltb_ge in H1. lia.
Qed.

Lemma entry_at_range (es : list FileEntry) (i : Z) (e : FileEntry) :
  entry_at es i = Some e -> (0 <= i < Z.of_nat (List.length es))%Z.
Proof.
  unfold entry_at. destruct (0 <=? i)%Z eqn:H0; [|discriminate].
  destruct (i <? Z.of_nat (List.length es))%Z eqn:H1; [|discriminate].
  intros _. apply Z.leb_le in H0. apply Z.ltb_lt in H1. lia.
Qed.

(** C4: Open needs [selectedIndex] to name an existing non-directory entry
    (so -1 never validates), Save needs a non-empty filename, SelectFolder
    is always valid. *)
Theorem C4_IsValidSelection_cases (s : Session) :
  (mode s = Open ->
     (IsValidSelection s = true <->
      exists e, (0 <= selectedIndex s)%Z /\
                nth_error (entries s) (Z.to_nat (selectedIndex s)) = Some e /\
                isDirectory e = false)) /\
  (mode s = Open -> selectedIndex s = (-1)%Z -> IsValidSelection s = false) /\
  (mode s = Save -> (IsValidSelection s = true <-> filenameBuffer s <> EmptyString)) /\
  (mode s = SelectFolder -> IsValidSelection s = true).
Proof.
  unfold IsValidSelection. rewrite entry_at_spec.
  split; [|split; [|split]]; intros Hm; rewrite Hm.
  - destruct (0 <=? selectedIndex s)%Z eqn:H0.
    + apply Z.leb_le in H0.
      destruct (nth_error (entries s) (Z.to_nat (selectedIndex s))) as [e|] eqn:He.
      * split.
        -- intros Hd. exists e. split; [exact H0|]. split; [reflexivity|].
           destruct (isDirectory e); [discriminate|reflexivity].
        -- intros [e' [_ [He' Hd]]]. assert (e' = e) as -> by congruence.
           rewrite Hd. reflexivity.
      * split; [discriminate|]. intros [e' [_ [He' _]]]. congruence.
    + apply Z.leb_gt in H0. split; [discriminate|].
      intros [e [Hle _]]. lia.
  - intros ->. reflexivity.
  - destruct (String.eqb_spec (filenameBuffer s) EmptyString) as [E|E]; simpl;
      split; intros H; congruence.
  - reflexivity.
Qed.

Lemma C4_IsValidSelection_cases_witness :
  IsValidSelection (session0 Open [] "/d" "" [dir_b; file_a] 1) = true /\
  IsValidSelection (session0 Open [] "/d" "" [dir_b; file_a] (-1)) = false.
Proof.
  split.
  - apply (proj1 (C4_IsValidSelection_cases (session0 Open [] "/d" "" [dir_b; file_a] 1))
             eq_refl).
    exists file_a. split; [cbn; lia|]. split; reflexivity.
  - apply (proj1 (proj2 (C4_IsValidSelection_cases
                           (session0 Open [] "/d" "" [dir_b; file_a] (-1)))));
      reflexivity.
Defined.

(** ** Incremental search *)

(** The length test and character loop of [FindMatchingEntryIndex] decide
    exactly "starts with, case-insensitively". *)
Lemma chars_match_ci_prefix (p n : string) :
  (String.length p <=? String.length n) && chars_match p n = ci_prefix p n.
Proof.
  unfold ci_prefix. revert n.
  induction p as [|c p IH]; intros [|c' n]; simpl; try reflexivity.
  rewrite <- IH, Ascii.eqb_sym.
  destruct (String.length p <=? String.length n), (Ascii.eqb _ _), (chars_match p n);
    reflexivity.
Qed.

Lemma find_matching_from_eq (p : string) (i : Z) (e : FileEntry) (es : list FileEntry) :
  find_matching_from p i (e :: es) =
  if ci_prefix p (name e) then i else find_matching_from p (i + 1) es.
Proof. simpl. rewrite chars_match_ci_prefix. reflexivity. Qed.

Lemma find_matching_from_none (p : string) (es : list FileEntry) :
  forall i, (forall e, In e es -> ci_prefix p (name e) = false) ->
  find_matching_from p i es = (-1)%Z.
Proof.
  induction es as [|e es IH]; intros i H; [reflexivity|].
  rewrite find_matching_from_eq, (H e (or_introl eq_refl)).
  apply IH. intros x Hx. apply H. right. exact Hx.
Qed.

Lemma find_matching_from_first (p : string) (es : list FileEntry) :
  forall i k e,
  nth_error es k = Some e -> ci_prefix p (name e) = true ->
  (forall j e', (j < k)%nat -> nth_error es j = Some e' -> ci_prefix p (name e') = false) ->
  find_matching_from p i es = (i + Z.of_nat k)%Z.
Proof.
  induction es as [|x es IH]; intros i k e Hk Hm Hbefore.
  - destruct k; discriminate.
  - rewrite find_matching_from_eq. destruct k as [|k]; simpl in Hk.
    + injection Hk as ->. rewrite Hm. lia.
    + rewrite (Hbefore 0%nat x ltac:(lia) eq_refl).
      rewrite (IH (i + 1)%Z k e Hk Hm).
      * lia.
      * intros j e' Hj He'. apply (Hbefore (S j) e'); [lia | exact He'].
Qed.

Lemma find_matching_from_range (p : string) (es : list FileEntry) :
  forall i, find_matching_from p i es = (-1)%Z \/
  (i <= find_matching_from p i es < i + Z.of_nat (List.length es))%Z.
Proof.
  induction es as [|e es IH]; intros i; [left; reflexivity|].
  rewrite find_matching_from_eq. destruct (ci_prefix p (name e)).
  - right. simpl List.length. lia.
  - destruct (IH (i + 1)%Z) as [H|H]; [left; exact H|right].
    simpl List.length. lia.
Qed.

(** C8: in Open mode an edit leaving non-empty text selects, and asks to
    scroll to, the first entry whose name starts case-insensitively with it;
    when no entry matches the selection is unchanged. *)
Theorem C8_incremental_search (s : Session) (typed : string) :
  mode s = Open -> typed <> EmptyString ->
  let s' := FilenameInput typed true s in
  filenameBuffer s' = typed /\
  (forall k e, nth_error (entries s) k = Some e -> ci_prefix typed (name e) = true ->
     (forall j e', (j < k)%nat -> nth_error (entries s) j = Some e' ->
                   ci_prefix typed (name e') = false) ->
     selectedIndex s' = Z.of_nat k /\ pendingScrollToIndex s' = Z.of_nat k) /\
  ((forall e, In e (entries s) -> ci_prefix typed (name e) = false) ->
     selectedIndex s' = selectedIndex s).
Proof.
  intros Hm Hne. unfold FilenameInput, FindMatchingEntryIndex. simpl. rewrite Hm.
  destruct typed as [|c t]; [congruence|]. simpl.
  split; [|split].
  - destruct (0 <=? find_matching_from (String c t) 0 (entries s))%Z; reflexivity.
  - intros k e Hk Hmatch Hbefore.
    rewrite (find_matching_from_first (String c t) (entries s) 0 k e Hk Hmatch Hbefore).
    replace (0 + Z.of_nat k)%Z with (Z.of_nat k) by lia.
    destruct (0 <=? Z.of_nat k)%Z eqn:H0; [split; reflexivity|].
    apply Z.leb_gt in H0. lia.
  - intros Hnone. rewrite (find_matching_from_none _ _ 0 Hnone). reflexivity.
Qed.

Lemma C8_incremental_search_witness :
  selectedIndex (FilenameInput "B" true (session0 Open [] "/d" "" [file_a; dir_b] (-1)))
  = 1%Z.
Proof.
  destruct (C8_incremental_search (session0 Open [] "/d" "" [file_a; dir_b] (-1)) "B"
              eq_refl ltac:(discriminate)) as [_ [Hfirst _]].
  apply (Hfirst 1%nat dir_b eq_refl eq_refl).
  intros j e' Hj He'. destruct j as [|j]; [|lia].
  simpl in He'. injection He' as <-. reflexivity.
Defined.

(** ** The selection invariant *)

Lemma RefreshDirectory_selectedIndex (fs : FileSystem) (s : Session) :
  selectedIndex (RefreshDirectory fs s) = (-1)%Z.
Proof. reflexivity. Qed.

Lemma RefreshDirectory_selection_ok (fs : FileSystem) (s : Session) :
  selection_ok (RefreshDirectory fs s).
Proof. left. reflexivity. Qed.

Lemma NavigateTo_selection_ok (fs : FileSystem) (p : string) (s s' : Session) :
  selection_ok s -> NavigateTo fs p s = Normal s' -> selection_ok s'.
Proof.
  unfold NavigateTo. intros Hok.
  destruct (IsDirectory fs p) as [[|]|e]; intros H; injection H as <- || discriminate.
  - apply RefreshDirectory_selection_ok.
  - exact Hok.
Qed.

Lemma SelectEntry_selection_ok (i : Z) (s : Session) :
  selection_ok (SelectEntry i s).
Proof.
  unfold SelectEntry. destruct (entry_at (entries s) i) as [e|] eqn:He.
  - apply entry_at_range in He. right.
    destruct (negb (isDirectory e) && negb (mode_eqb (mode s) SelectFolder)); exact He.
  - left. reflexivity.
Qed.

Lemma FindMatchingEntryIndex_range (p : string) (s : Session) :
  FindMatchingEntryIndex p s = (-1)%Z \/
  (0 <= FindMatchingEntryIndex p s < Z.of_nat (List.length (entries s)))%Z.
Proof.
  unfold FindMatchingEntryIndex. destruct p as [|c t]; [left; reflexivity|].
  destruct (find_matching_from_range (String c t) (entries s) 0) as [H|H];
    [left | right]; lia.
Qed.

Lemma FilenameInput_selection_ok (b : string) (ed : bool) (s : Session) :
  selection_ok s -> selection_ok (FilenameInput b ed s).
Proof.
  intros Hok. unfold FilenameInput.
  destruct (ed && mode_eqb (mode (set_filenameBuffer b s)) Open &&
            negb (String.eqb b EmptyString)); [|exact Hok].
  destruct (0 <=? FindMatchingEntryIndex b (set_filenameBuffer b s))%Z eqn:H0;
    [|exact Hok].
  apply Z.leb_le in H0. right.
  destruct (FindMatchingEntryIndex_range b (set_filenameBuffer b s)) as [H|H];
    simpl in *; lia.
Qed.

(** C9: every operation keeps [selectedIndex] at -1 or on an entry of the
    current list: a refresh resets it to -1, [SelectEntry] out of range sets
    it to -1 without touching the filename, and the incremental search only
    returns -1 or an in-bounds index. *)
Theorem C9_selection_invariant :
  (forall fs op s s', selection_ok s -> step fs op s = Normal s' -> selection_ok s') /\
  (forall fs s, selectedIndex (RefreshDirectory fs s) = (-1)%Z) /\
  (forall i s, (i < 0 \/ Z.of_nat (List.length (entries s)) <= i)%Z ->
     selectedIndex (SelectEntry i s) = (-1)%Z /\
     filenameBuffer (SelectEntry i s) = filenameBuffer s) /\
  (forall p s, FindMatchingEntryIndex p s = (-1)%Z \/
     (0 <= FindMatchingEntryIndex p s < Z.of_nat (List.length (entries s)))%Z).
Proof.
  split; [|split; [|split]].
  - intros fs op s s' Hok. destruct op as [|o|i|p|i|i|b ed]; simpl;
      intros H; try (injection H as <-).
    + apply RefreshDirectory_selection_ok.
    + apply RefreshDirectory_selection_ok.
    + apply RefreshDirectory_selection_ok.
    + exact (NavigateTo_selection_ok fs p s s' Hok H).
    + apply SelectEntry_selection_ok.
    + revert H. unfold ActivateEntry.
      destruct (entry_at (entries s) i) as [e|]; [|intros H; injection H as <-; exact Hok].
      destruct (isDirectory e); [apply NavigateTo_selection_ok; exact Hok|].
      destruct (mode_eqb (mode s) Open); intros H; injection H as <-; exact Hok.
    + apply FilenameInput_selection_ok. exact Hok.
  - intros fs s. apply RefreshDirectory_selectedIndex.
  - intros i s Hout. unfold SelectEntry.
    destruct (entry_at (entries s) i) as [e|] eqn:He.
    + apply entry_at_range in He. lia.
    + split; reflexivity.
  - apply FindMatchingEntryIndex_range.
Qed.

Lemma C9_selection_invariant_witness :
  selection_ok (session0 Open [] "/d" "" [file_a; dir_b] (-1)) /\
  selection_ok (SelectEntry 5 (session0 Open [] "/d" "" [file_a; dir_b] 0)) /\
  selectedIndex (SelectEntry 5 (session0 Open [] "/d" "" [file_a; dir_b] 0)) = (-1)%Z.
Proof.
  assert (Hok : selection_ok (session0 Open [] "/d" "" [file_a; dir_b] (-1)))
    by (left; reflexivity).
  split; [exact Hok|]. split.
  - apply (proj1 C9_selection_invariant fs_d (OpSelectEntry 5)
             (session0 Open [] "/d" "" [file_a; dir_b] 0)).
    + right. cbn. lia.
    + reflexivity.
  - apply (proj1 (proj1 (proj2 (proj2 C9_selection_invariant)) 5%Z
                    (session0 Open [] "/d" "" [file_a; dir_b] 0) ltac:(cbn; lia))).
Defined.

(** ** Directories first under the other five orders *)

Section DirsFirst.
Variable comp : FileEntry -> FileEntry -> bool.
(** The comparator ranks every directory below every file. *)
Hypothesis comp_dirs_first : forall a b,
  isDirectory a = true -> isDirectory b = false -> comp a b = true /\ comp b a = false.







End DirsFirst.


(** ** Navigation on paths whose status is known *)

Lemma NavigateTo_status (fs : FileSystem) (p : string) (s : Session) :
  (fs_status fs p = StatOther \/ fs_status fs p = StatNotFound -> NavigateTo fs p s = Normal s) /\
  (fs_status fs p = StatDirectory ->
     NavigateTo fs p s =
     Normal (RefreshDirectory fs (set_selectedIndex (-1) (set_currentPath p s)))).
Proof.
  unfold NavigateTo, IsDirectory. split.
  - intros [H|H]; rewrite H; reflexivity.
  - intros H; rewrite H; reflexivity.
Qed.

(* ================================================================== *)
(** * Further properties of the listing, session and dialog code *)

(** ** The sort comparators *)

Lemma str_lt_irrefl (a : string) : str_lt a a = false.
Proof.
  induction a as [|x a IH]; simpl; [reflexivity|].
  rewrite Nat.ltb_irrefl. exact IH.
Qed.

Lemma str_lt_trans (a b c : string) :
  str_lt a b = true -> str_lt b c = true -> str_lt a c = true.
Proof.
  revert b c. induction a as [|x a IH]; intros [|y b] [|z c]; simpl; try discriminate;
    try reflexivity.
  destruct (Nat.ltb_spec (nat_of_ascii x) (nat_of_ascii y));
  destruct (Nat.ltb_spec (nat_of_ascii y) (nat_of_ascii x));
  destruct (Nat.ltb_spec (nat_of_ascii y) (nat_of_ascii z));
  destruct (Nat.ltb_spec (nat_of_ascii z) (nat_of_ascii y));
  destruct (Nat.ltb_spec (nat_of_ascii x) (nat_of_ascii z));
  destruct (Nat.ltb_spec (nat_of_ascii z) (nat_of_ascii x));
  try discriminate; try reflexivity; try lia.
  apply IH.
Qed.

Lemma str_lt_total (a b : string) :
  str_lt a b = false -> str_lt b a = false -> a = b.
Proof.
  revert b. induction a as [|x a IH]; intros [|y b]; simpl; try discriminate;
    try reflexivity.
  destruct (Nat.ltb_spec (nat_of_ascii x) (nat_of_ascii y)); try discriminate.
  destruct (Nat.ltb_spec (nat_of_ascii y) (nat_of_ascii x)); try discriminate.
  intros H1 H2. assert (Hxy : x = y).
  { rewrite <- (ascii_nat_embedding x), <- (ascii_nat_embedding y). f_equal. lia. }
  subst y. f_equal. apply IH; assumption.
Qed.

Section DirThen.
(** A key order on entries of the same kind, strict and total up to [key]. *)
Variable K : Type.
Variable key : FileEntry -> K.
Variable lt : K -> K -> bool.
Hypothesis lt_irrefl : forall a, lt a a = false.
Hypothesis lt_trans : forall a b c, lt a b = true -> lt b c = true -> lt a c = true.
Hypothesis lt_total : forall a b, lt a b = false -> lt b a = false -> a = b.

(** The shape of [compareName], [compareSize], [compareDate] and the
    SizeDesc and DateDesc lambdas. *)
Definition dir_then (a b : FileEntry) : bool :=
  if dir_ne a b then dir_gt a b else lt (key a) (key b).

Lemma dir_then_irrefl (a : FileEntry) : dir_then a a = false.
Proof.
  unfold dir_then, dir_ne. rewrite eqb_reflx. apply lt_irrefl.
Qed.

Lemma dir_then_trans (a b c : FileEntry) :
  dir_then a b = true -> dir_then b c = true -> dir_then a c = true.
Proof.
  unfold dir_then, dir_ne, dir_gt.
  destruct (isDirectory a), (isDirectory b), (isDirectory c); simpl;
    try discriminate; try reflexivity; apply lt_trans.
Qed.

Lemma dir_then_incomparable (a b : FileEntry) :
  dir_then a b = false -> dir_then b a = false ->
  isDirectory a = isDirectory b /\ key a = key b.
Proof.
  unfold dir_then, dir_ne, dir_gt.
  destruct (isDirectory a), (isDirectory b); simpl; try discriminate;
    intros H1 H2; (split; [reflexivity | apply lt_total; assumption]).
Qed.
End DirThen.

Arguments dir_then {K} key lt a b.

Lemma sort_comparator_dir_then (o : SortOrder) :
  o <> NameDesc ->
  exists K (key : FileEntry -> K) (lt : K -> K -> bool),
    (forall a, lt a a = false) /\
    (forall a b c, lt a b = true -> lt b c = true -> lt a c = true) /\
    (forall a b, lt a b = false -> lt b a = false -> a = b) /\
    forall a b, sort_comparator o a b = dir_then key lt a b.
Proof.
  intros Ho.
  assert (Zlt : (forall a, Z.ltb a a = false) /\
    (forall a b c, Z.ltb a b = true -> Z.ltb b c = true -> Z.ltb a c = true) /\
    (forall a b, Z.ltb a b = false -> Z.ltb b a = false -> a = b)).
  { split; [intros; apply Z.ltb_irrefl|]. split; intros *; rewrite ?Z.ltb_lt, ?Z.ltb_ge; lia. }
  assert (Zgt : (forall a, (fun x y => Z.gtb x y) a a = false) /\
    (forall a b c, Z.gtb a b = true -> Z.gtb b c = true -> Z.gtb a c = true) /\
    (forall a b, Z.gtb a b = false -> Z.gtb b a = false -> a = b)).
  { split; [intros a; rewrite Z.gtb_ltb; apply Z.ltb_irrefl|].
    split; intros *; rewrite ?Z.gtb_ltb, ?Z.ltb_lt, ?Z.ltb_ge; lia. }
  destruct o; [| congruence | | | |].
  - exists string, (fun e => lower (name e)), str_lt.
    split; [exact str_lt_irrefl|]. split; [exact str_lt_trans|]. split; [exact str_lt_total|].
    reflexivity.
  - exists Z, size, Z.ltb. destruct Zlt as [? [? ?]]. repeat split; auto.
  - exists Z, size, Z.gtb. destruct Zgt as [? [? ?]]. repeat split; auto.
  - exists Z, modifiedTime, Z.ltb. destruct Zlt as [? [? ?]]. repeat split; auto.
  - exists Z, modifiedTime, Z.gtb. destruct Zgt as [? [? ?]]. repeat split; auto.
Qed.

(** Every order but NameDesc hands [std::sort] a strict weak ordering:
    irreflexive, transitive, and two entries compare equal only when they
    are of the same kind and have the same sort key (so incomparability is
    transitive). *)
Theorem sort_comparator_strict_weak_order (o : SortOrder) :
  o <> NameDesc ->
  let comp := sort_comparator o in
  (forall a, comp a a = false) /\
  (forall a b c, comp a b = true -> comp b c = true -> comp a c = true) /\
  (forall a b c, comp a b = false -> comp b a = false ->
                 comp b c = false -> comp c b = false ->
                 comp a c = false /\ comp c a = false).
Proof.
  intros Ho comp. subst comp.
  destruct (sort_comparator_dir_then o Ho) as [K [key [lt [Hir [Htr [Hto Heq]]]]]].
  split; [intros a; rewrite Heq; apply dir_then_irrefl; exact Hir|].
  split; [intros a b c; rewrite !Heq; apply dir_then_trans; exact Htr|].
  intros a b c; rewrite !Heq; intros H1 H2 H3 H4.
  destruct (dir_then_incomparable K key lt Hto a b H1 H2) as [Hd1 Hk1].
  destruct (dir_then_incomparable K key lt Hto b c H3 H4) as [Hd2 Hk2].
  unfold dir_then, dir_ne, dir_gt. rewrite Hd1, Hd2, Hk1, Hk2, eqb_reflx, Hir.
  split; reflexivity.
Qed.

Lemma sort_comparator_strict_weak_order_witness :
  SizeDesc <> NameDesc /\
  (forall a, sort_comparator SizeDesc a a = false).
Proof.
  split; [discriminate|].
  exact (proj1 (sort_comparator_strict_weak_order SizeDesc ltac:(discriminate))).
Defined.

(** The NameDesc comparator is reflexive: it says every entry is less than
    itself, which breaks [std::sort]'s strict-weak-ordering requirement. *)
Theorem NameDesc_comparator_reflexive (a : FileEntry) :
  sort_comparator NameDesc a a = true.
Proof.
  unfold sort_comparator.
  assert (H : compareName a a = false).
  { exact (dir_then_irrefl string (fun e => lower (name e)) str_lt str_lt_irrefl a). }
  rewrite H, eqb_reflx. reflexivity.
Qed.

(** ** Listing, filtering and hiding *)

Lemma unguarded_ins_perm {A : Type} (comp : A -> A -> bool) (x : A) (l : list A) :
  Permutation (unguarded_ins comp x l) (x :: l).
Proof.
  induction l as [|y l IH]; simpl; [reflexivity|].
  destruct (comp x y); [|reflexivity].
  rewrite IH. apply perm_swap.
Qed.

Lemma insertion_step_perm {A : Type} (comp : A -> A -> bool) (prefix : list A) (x : A) :
  Permutation (insertion_step comp prefix x) (x :: prefix).
Proof.
  unfold insertion_step. destruct prefix as [|f rest]; [reflexivity|].
  destruct (comp x f); [reflexivity|].
  rewrite <- Permutation_rev, unguarded_ins_perm, <- Permutation_rev. reflexivity.
Qed.

Lemma insertion_sort_perm {A : Type} (comp : A -> A -> bool) (l : list A) :
  Permutation (insertion_sort comp l) l.
Proof.
  unfold insertion_sort.
  assert (H : forall acc, Permutation (fold_left (insertion_step comp) l acc) (rev l ++ acc)).
  { induction l as [|x l IH]; intros acc; simpl; [reflexivity|].
    rewrite IH, insertion_step_perm, <- app_assoc. reflexivity. }
  rewrite H, app_nil_r. symmetry. apply Permutation_rev.
Qed.







Lemma GetCurrentExtensions_nil_cases (s : Session) :
  (match GetCurrentExtensions s with [] => true | _ => false end) = true <->
  GetCurrentExtensions s = [].
Proof. destruct (GetCurrentExtensions s); split; congruence. Qed.



(** ** Extensions, file names and combined paths *)

Lemma tolower_idem (c : ascii) : tolower (tolower c) = tolower c.
Proof.
  unfold tolower. cbv zeta.
  destruct ((65 <=? nat_of_ascii c) && (nat_of_ascii c <=? 90))%nat eqn:H; [|rewrite H; reflexivity].
  apply andb_true_iff in H as [H1 H2]. apply Nat.leb_le in H1, H2.
  rewrite nat_ascii_embedding by lia.
  replace ((65 <=? nat_of_ascii c + 32) && (nat_of_ascii c + 32 <=? 90))%nat with false;
    [reflexivity|].
  symmetry. apply andb_false_iff. right. apply Nat.leb_gt. lia.
Qed.

Lemma lower_idem (s : string) : lower (lower s) = lower s.
Proof. induction s as [|c s IH]; simpl; [reflexivity|]. rewrite tolower_idem, IH. reflexivity. Qed.

Lemma extension_loop_shape (fuel : nat) (exts : string) (x : string) :
  In x (extension_loop fuel exts) -> exists r, x = String "." r /\ lower x = x.
Proof.
  revert exts. induction fuel as [|fuel IH]; intros exts; simpl; [intros []|].
  destruct (find_sub "*." exts) as [pos|]; [|intros []].
  destruct (find_first_of ";," (drop (pos + 2) exts)) as [endPos|].
  - intros [<-|H]; [|exact (IH _ H)].
    change (tolower ".") with "."%char. eexists; split; [reflexivity|].
    cbn [lower]. change (tolower ".") with "."%char. rewrite lower_idem. reflexivity.
  - intros [<-|[]]. change (tolower ".") with "."%char. eexists; split; [reflexivity|].
    cbn [lower]. change (tolower ".") with "."%char. rewrite lower_idem. reflexivity.
Qed.

Lemma GetCurrentExtensions_shape (s : Session) (x : string) :
  In x (GetCurrentExtensions s) -> exists r, x = String "." r /\ lower x = x.
Proof.
  unfold GetCurrentExtensions. destruct (filters s); [intros []|].
  destruct (_ || _); [intros []|].
  destruct (nth_error _ _) as [flt|]; [|intros []].
  apply extension_loop_shape.
Qed.

(** Every extension [GetExtensionList] returns starts with '.' and is in
    lower case, the form [GetExtension] produces, so the exact comparison of
    [BuildFullPath] matches extensions case-insensitively. *)
Theorem GetExtensionList_lowercase_dotted (f : FileFilter) (x : string) :
  In x (GetExtensionList f) -> exists r, x = String "." r /\ lower x = x.
Proof. apply extension_loop_shape. Qed.

Lemma GetExtensionList_lowercase_dotted_witness :
  In ".jml"%string (GetExtensionList (mkFilter "J" "*.JML;*.jmd")) /\
  exists r, ".jml"%string = String "." r /\ lower ".jml" = ".jml"%string.
Proof.
  split; [simpl; tauto|].
  apply (GetExtensionList_lowercase_dotted (mkFilter "J" "*.JML;*.jmd")). simpl. tauto.
Defined.

Lemma rfind_char_none (ch : ascii) (s : string) :
  ~ In ch (list_ascii_of_string s) -> rfind_char ch s = None.
Proof.
  induction s as [|x s IH]; simpl; intros H; [reflexivity|].
  rewrite IH by tauto. destruct (Ascii.eqb_spec x ch); [subst; tauto | reflexivity].
Qed.

Lemma rfind_char_app (ch : ascii) (x c : string) :
  ~ In ch (list_ascii_of_string c) -> rfind_char ch (String.append x c) = rfind_char ch x.
Proof.
  intros Hc. induction x as [|a x IH]; simpl; [apply rfind_char_none; exact Hc|].
  rewrite IH. reflexivity.
Qed.

Lemma rfind_char_last (ch : ascii) (x c : string) :
  ~ In ch (list_ascii_of_string c) ->
  rfind_char ch (String.append x (String ch c)) = Some (String.length x).
Proof.
  intros Hc. induction x as [|a x IH]; simpl.
  - rewrite rfind_char_none by exact Hc. rewrite Ascii.eqb_refl. reflexivity.
  - rewrite IH. reflexivity.
Qed.

Lemma rfind_char_lt (ch : ascii) (s : string) (i : nat) :
  rfind_char ch s = Some i -> (i < String.length s)%nat.
Proof.
  revert i. induction s as [|x s IH]; simpl; intros i; [discriminate|].
  destruct (rfind_char ch s) as [j|].
  - intros H; injection H as <-. specialize (IH j eq_refl). lia.
  - destruct (Ascii.eqb x ch); [intros H; injection H as <-; lia | discriminate].
Qed.

Lemma drop_app (n : nat) (x c : string) :
  (n <= String.length x)%nat -> drop n (String.append x c) = String.append (drop n x) c.
Proof.
  revert n. induction x as [|a x IH]; intros [|n]; simpl; intros H; try reflexivity.
  - lia.
  - apply IH. lia.
Qed.

Lemma drop_length_app (x c : string) : drop (String.length x) (String.append x c) = c.
Proof. induction x as [|a x IH]; simpl; [destruct c|]; trivial. Qed.

Lemma path_filename_app (x c : string) :
  ~ In "/"%char (list_ascii_of_string c) ->
  path_filename (String.append x c) = String.append (path_filename x) c.
Proof.
  intros Hc. unfold path_filename. rewrite rfind_char_app by exact Hc.
  destruct (rfind_char "/" x) as [i|] eqn:Hi; [|reflexivity].
  apply drop_app. apply rfind_char_lt in Hi. lia.
Qed.

Lemma path_filename_slash (x c : string) :
  ~ In "/"%char (list_ascii_of_string c) ->
  path_filename (String.append x (String "/" c)) = c.
Proof.
  intros Hc. unfold path_filename. rewrite rfind_char_last by exact Hc.
  clear Hc. induction x as [|a x IH]; simpl; [reflexivity|]. exact IH.
Qed.

Lemma path_filename_plain (c : string) :
  ~ In "/"%char (list_ascii_of_string c) -> path_filename c = c.
Proof. intros Hc. unfold path_filename. rewrite rfind_char_none by exact Hc. reflexivity. Qed.

Lemma path_filename_CombinePath (base nm : string) :
  nm <> EmptyString -> ~ In "/"%char (list_ascii_of_string nm) ->
  path_filename (CombinePath base nm) = nm.
Proof.
  intros Hne Hnm. unfold CombinePath.
  assert (Hs : starts_with "/" nm = false).
  { destruct nm as [|c nm]; [congruence|]. cbn [starts_with].
    destruct (Ascii.eqb_spec "/" c); [subst; simpl in Hnm; tauto | reflexivity]. }
  rewrite Hs. simpl orb.
  destruct (String.eqb_spec base EmptyString); [apply path_filename_plain; exact Hnm|].
  destruct (String.eqb_spec (path_filename base) EmptyString) as [Hb|Hb]; simpl.
  - destruct (String.eqb_spec nm EmptyString); [congruence|].
    rewrite path_filename_app, Hb by exact Hnm. reflexivity.
  - apply path_filename_slash. exact Hnm.
Qed.

Ltac not_in_chars :=
  simpl; intros H; repeat (destruct H as [H|H]; [discriminate H|]); exact H.

(** [GetFilename(CombinePath(base, name))] gives back [name] for a
    non-empty name without '/', whatever the base directory. *)
Theorem GetFilename_CombinePath (base nm : string) :
  nm <> EmptyString -> ~ In "/"%char (list_ascii_of_string nm) ->
  GetFilename (CombinePath base nm) = nm.
Proof. apply path_filename_CombinePath. Qed.

Lemma GetFilename_CombinePath_witness :
  "a.txt"%string <> EmptyString /\ ~ In "/"%char (list_ascii_of_string "a.txt") /\
  GetFilename (CombinePath "/home/u/" "a.txt") = "a.txt"%string.
Proof.
  split; [discriminate|]. split; [not_in_chars|].
  apply GetFilename_CombinePath; [discriminate | not_in_chars].
Defined.

Lemma list_ascii_of_string_app (x y : string) :
  list_ascii_of_string (String.append x y) = list_ascii_of_string x ++ list_ascii_of_string y.
Proof. induction x as [|a x IH]; simpl; [reflexivity|]. rewrite IH. reflexivity. Qed.

Lemma length_append (x y : string) :
  String.length (String.append x y) = (String.length x + String.length y)%nat.
Proof. induction x as [|a x IH]; simpl; [reflexivity|]. rewrite IH. reflexivity. Qed.

Lemma GetExtension_same_filename (p q : string) :
  path_filename p = path_filename q -> GetExtension p = GetExtension q.
Proof. intros H. unfold GetExtension, path_extension. rewrite H. reflexivity. Qed.

Lemma GetExtension_append_dot (p fn e : string) :
  path_filename p = String.append fn (String "." e) ->
  fn <> EmptyString -> e <> EmptyString -> ~ In "."%char (list_ascii_of_string e) ->
  GetExtension p = lower (String "." e).
Proof.
  intros Hp Hfn He Hdot. unfold GetExtension, path_extension. rewrite Hp.
  replace (String.length (String.append fn (String "." e)) <=? 2)%nat with false.
  2:{ symmetry. apply Nat.leb_gt. rewrite length_append. simpl.
      destruct fn; [congruence|]. destruct e; [congruence|]. simpl. lia. }
  simpl andb. rewrite rfind_char_last by exact Hdot.
  destruct fn as [|c fn']; [congruence|].
  pose proof (drop_length_app (String c fn') (String "." e)) as Hd.
  cbn [String.length] in *. rewrite Hd. reflexivity.
Qed.

(** In Save mode, when the selected filter's first extension is a simple
    one ('.' then a non-empty text without '.' or '/') and the typed name is
    a non-empty name without '/', the path [BuildFullPath] returns has one
    of the filter's extensions, and its file name is the typed name, with
    the first extension appended when it had none of them. *)
Theorem BuildFullPath_save_extension (s : Session) (ext0 e : string) (rest : list string) :
  mode s = Save ->
  GetCurrentExtensions s = ext0 :: rest ->
  ext0 = String "." e -> e <> EmptyString ->
  ~ In "."%char (list_ascii_of_string e) -> ~ In "/"%char (list_ascii_of_string e) ->
  filenameBuffer s <> EmptyString -> ~ In "/"%char (list_ascii_of_string (filenameBuffer s)) ->
  In (GetExtension (BuildFullPath s)) (GetCurrentExtensions s) /\
  (GetFilename (BuildFullPath s) = filenameBuffer s \/
   GetFilename (BuildFullPath s) = String.append (filenameBuffer s) ext0).
Proof.
  intros Hm Hx He0 Hene Hedot Heslash Hfn Hfnslash.
  assert (Hlow : lower ext0 = ext0).
  { destruct (GetCurrentExtensions_shape s ext0) as [r [_ Hl]]; [rewrite Hx; left; reflexivity|].
    exact Hl. }
  unfold BuildFullPath. rewrite Hm.
  destruct (filters s) eqn:Hf.
  { unfold GetCurrentExtensions in Hx. rewrite Hf in Hx. discriminate. }
  rewrite Hx. set (fn := filenameBuffer s) in *.
  destruct (existsb (String.eqb (GetExtension fn)) (ext0 :: rest)) eqn:Hv.
  - assert (Hpf : path_filename (CombinePath (currentPath s) fn) = fn)
      by (apply path_filename_CombinePath; assumption).
    split.
    + rewrite (GetExtension_same_filename _ fn) by (rewrite Hpf; symmetry;
        apply path_filename_plain; exact Hfnslash).
      apply existsb_exists in Hv as [x [Hin Heq]]. apply String.eqb_eq in Heq.
      rewrite Heq. exact Hin.
    + left. exact Hpf.
  - assert (Hnm : ~ In "/"%char (list_ascii_of_string (String.append fn ext0))).
    { rewrite list_ascii_of_string_app, in_app_iff, He0. simpl. intros [H|[H|H]]; auto.
      discriminate H. }
    assert (Hpf : path_filename (CombinePath (currentPath s) (String.append fn ext0)) =
                  String.append fn ext0).
    { apply path_filename_CombinePath; [|exact Hnm].
      destruct fn; [congruence | discriminate]. }
    split.
    + rewrite (GetExtension_append_dot _ fn e) by (try rewrite Hpf, He0; auto).
      rewrite <- He0, Hlow. left. reflexivity.
    + right. exact Hpf.
Qed.

Lemma BuildFullPath_save_extension_witness :
  let s := session0 Save [mkFilter "Text" "*.txt"] "/d" "notes" [] (-1) in
  mode s = Save /\ GetCurrentExtensions s = [".txt"%string] /\
  In (GetExtension (BuildFullPath s)) (GetCurrentExtensions s).
Proof.
  intros s. split; [reflexivity|]. split; [reflexivity|].
  apply (proj1 (BuildFullPath_save_extension s ".txt" "txt" [] eq_refl eq_refl eq_refl
                  ltac:(discriminate) ltac:(not_in_chars) ltac:(not_in_chars)
                  ltac:(discriminate) ltac:(not_in_chars))).
Defined.

(** ** The breadcrumbs of the path bar *)

Lemma find_first_of_sep_app (c s : string) :
  no_sep c ->
  find_first_of (String "/" (String "\" EmptyString)) (String.append c s) =
  option_map (Nat.add (String.length c)) (find_first_of (String "/" (String "\" EmptyString)) s).
Proof.
  intros [H1 H2]. induction c as [|a c IH]; simpl.
  - destruct (find_first_of _ s); reflexivity.
  - simpl in H1, H2.
    destruct (Ascii.eqb_spec a "/"); [subst; tauto|].
    destruct (Ascii.eqb_spec a "\"); [subst; tauto|]. simpl.
    rewrite IH by tauto. destruct (find_first_of _ s); reflexivity.
Qed.

Lemma append_empty_r (s : string) : String.append s EmptyString = s.
Proof. induction s as [|a s IH]; simpl; [reflexivity|]. rewrite IH. reflexivity. Qed.

Lemma take_length_app (c s : string) : take (String.length c) (String.append c s) = c.
Proof. induction c as [|a c IH]; simpl; [reflexivity|]. rewrite IH. reflexivity. Qed.

Lemma drop_length_app_S (c : string) (x : ascii) (s : string) :
  drop (String.length c + 1) (String.append c (String x s)) = s.
Proof. induction c as [|a c IH]; simpl; [reflexivity|]. exact IH. Qed.

Lemma string_eqb_nonempty (c : string) : c <> EmptyString -> String.eqb c EmptyString = false.
Proof. intros H. apply String.eqb_neq. exact H. Qed.

Lemma split_parts_concat (cs : list string) (fuel : nat) :
  (forall c, In c cs -> c <> EmptyString /\ no_sep c) ->
  (List.length cs <= fuel)%nat ->
  split_parts fuel (String.concat "/" cs) = cs.
Proof.
  revert fuel. induction cs as [|c cs IH]; intros fuel Hcs Hf.
  - destruct fuel; reflexivity.
  - destruct fuel as [|fuel]; [simpl in Hf; lia|].
    destruct (Hcs c (or_introl eq_refl)) as [Hne Hsep].
    destruct cs as [|c' cs'].
    + pose proof (find_first_of_sep_app c EmptyString Hsep) as Hn.
      rewrite append_empty_r in Hn. simpl in Hn.
      change (String.concat "/" [c]) with c. simpl split_parts.
      rewrite Hn, string_eqb_nonempty by exact Hne. reflexivity.
    + change (String.concat "/" (c :: c' :: cs'))
        with (String.append c (String "/" (String.concat "/" (c' :: cs')))).
      simpl split_parts. rewrite find_first_of_sep_app by exact Hsep. simpl option_map.
      rewrite Nat.add_0_r, take_length_app, drop_length_app_S,
              string_eqb_nonempty by exact Hne.
      f_equal. apply IH; [intros x Hx; apply Hcs; right; exact Hx | simpl in Hf |- *; lia].
Qed.

Lemma concat_length (cs : list string) :
  (forall c, In c cs -> c <> EmptyString) ->
  (List.length cs <= S (String.length (String.concat "/" cs)))%nat.
Proof.
  induction cs as [|c cs IH]; intros H; [simpl; lia|].
  assert (Hc : (1 <= String.length c)%nat).
  { destruct c; [exfalso; exact (H _ (or_introl eq_refl) eq_refl) | simpl; lia]. }
  destruct cs as [|c' cs']; [simpl; lia|].
  change (String.concat "/" (c :: c' :: cs'))
    with (String.append c (String "/" (String.concat "/" (c' :: cs')))).
  rewrite length_append. cbn [String.length].
  specialize (IH (fun x Hx => H x (or_intror Hx))). simpl List.length in IH |- *. lia.
Qed.

Lemma append_assoc (a b c : string) :
  String.append a (String.append b c) = String.append (String.append a b) c.
Proof. induction a as [|x a IH]; simpl; [reflexivity|]. rewrite IH. reflexivity. Qed.

Lemma crumb_targets_later (cs : list string) (b : string) :
  crumb_targets false b cs =
  map (fun k => String.append b (crumb_suffix (firstn k cs))) (seq 1 (List.length cs)).
Proof.
  revert b. induction cs as [|c cs IH]; intros b; [reflexivity|].
  simpl crumb_targets. rewrite IH. simpl List.length. simpl seq. simpl map.
  f_equal.
  rewrite <- (seq_shift (List.length cs) 1), map_map. apply map_ext. intros k.
  simpl firstn. simpl crumb_suffix. rewrite <- !append_assoc. reflexivity.
Qed.

(** For an absolute path "/c1/c2/.../cn" (components non-empty, without '/'
    or '\'), the path bar shows a "/" button and then one button per
    component; the root button leads to "/" and the button of [ck] leads
    to "/c1/.../ck/". *)
Theorem breadcrumbs_absolute (cs : list string) :
  (forall c, In c cs -> c <> EmptyString /\ no_sep c) ->
  breadcrumbs (String "/" (String.concat "/" cs)) =
  combine ("/"%string :: cs)
          (map (fun k => String "/" (crumb_suffix (firstn k cs))) (seq 0 (S (List.length cs)))).
Proof.
  intros Hcs. unfold breadcrumbs, path_parts.
  rewrite split_parts_concat; [| exact Hcs |].
  2:{ apply concat_length. intros c Hc. apply (Hcs c Hc). }
  f_equal. simpl crumb_targets. rewrite crumb_targets_later.
  simpl seq. simpl map. reflexivity.
Qed.

Lemma breadcrumbs_absolute_witness :
  breadcrumbs "/home/user" =
  [("/", "/"); ("home", "/home/"); ("user", "/home/user/")]%string.
Proof.
  change "/home/user"%string with (String "/" (String.concat "/" ["home"; "user"]%string)).
  rewrite (breadcrumbs_absolute ["home"; "user"]%string).
  - reflexivity.
  - intros c [<-|[<-|[]]]; (split; [discriminate | split; not_in_chars]).
Defined.

(** ** Persisting the last directory in the ini file *)

Lemma no_eol_app (x y : string) : no_eol (String.append x y) = no_eol x && no_eol y.
Proof. unfold no_eol. rewrite list_ascii_of_string_app, forallb_app. reflexivity. Qed.

Lemma split_lines_acc_line (cur x : string) (c : ascii) (rest : string) :
  no_eol x = true -> is_eol c = true ->
  split_lines_acc cur (String.append x (String c rest)) =
  (if String.eqb (String.append cur x) EmptyString then [] else [String.append cur x])
    ++ split_lines_acc EmptyString rest.
Proof.
  intros Hx Hc. revert cur. induction x as [|a x IH]; intros cur; simpl.
  - rewrite Hc, append_empty_r. reflexivity.
  - unfold no_eol in Hx. simpl in Hx. apply andb_true_iff in Hx as [Ha Hx].
    apply negb_true_iff in Ha. rewrite Ha, IH by exact Hx.
    rewrite <- append_assoc. reflexivity.
Qed.

Lemma split_lines_acc_last (cur x : string) :
  no_eol x = true ->
  split_lines_acc cur x =
  (if String.eqb (String.append cur x) EmptyString then [] else [String.append cur x]).
Proof.
  intros Hx. revert cur. induction x as [|a x IH]; intros cur; simpl.
  - rewrite append_empty_r. reflexivity.
  - unfold no_eol in Hx. simpl in Hx. apply andb_true_iff in Hx as [Ha Hx].
    apply negb_true_iff in Ha. rewrite Ha, IH by exact Hx.
    rewrite <- append_assoc. reflexivity.
Qed.

Lemma starts_with_app (p x : string) : starts_with p (String.append p x) = true.
Proof. induction p as [|a p IH]; simpl; [reflexivity|]. rewrite Ascii.eqb_refl. exact IH. Qed.

Lemma WriteAll_shape (typeName g : string) :
  g <> EmptyString ->
  SettingsHandler_WriteAll typeName g =
  String.append (String.append "[" (String.append typeName "][Data]"))
    (String (ascii_of_nat 10)
      (String.append (String.append "LastPath=" g)
        (String (ascii_of_nat 10) (String (ascii_of_nat 10) EmptyString)))).
Proof.
  intros Hg. unfold SettingsHandler_WriteAll. rewrite string_eqb_nonempty by exact Hg.
  unfold newline. simpl String.concat. rewrite <- !append_assoc. simpl. reflexivity.
Qed.

Lemma WriteAll_lines (typeName g : string) :
  g <> EmptyString -> no_eol g = true -> no_eol typeName = true ->
  ini_lines (SettingsHandler_WriteAll typeName g) =
    [String.append "[" (String.append typeName "][Data]"); String.append "LastPath=" g].
Proof.
  intros Hg Hng Hnt. rewrite WriteAll_shape by exact Hg. unfold ini_lines.
  rewrite split_lines_acc_line; [| rewrite !no_eol_app, Hnt; reflexivity | reflexivity].
  rewrite split_lines_acc_line; [| rewrite no_eol_app, Hng; reflexivity | reflexivity].
  simpl. reflexivity.
Qed.

Lemma ReadLine_LastPath (g old : string) :
  SettingsHandler_ReadLine (SettingsHandler_ReadOpen "Data") (String.append "LastPath=" g) old = g.
Proof.
  unfold SettingsHandler_ReadLine. change (SettingsHandler_ReadOpen "Data") with true.
  rewrite starts_with_app. exact (drop_length_app "LastPath=" g).
Qed.

(** The ini text [SettingsHandler_WriteAll] writes for a non-empty last
    path (without line breaks, under a type name without line breaks) is
    the section header "[TypeName][Data]" and one "LastPath=" line; reading
    that section back ([ReadOpen] on "Data", then [ReadLine] on each of its
    lines) restores the path, whatever [g_lastPath] held before. *)
Theorem settings_round_trip (typeName g old : string) :
  g <> EmptyString -> no_eol g = true -> no_eol typeName = true ->
  ini_lines (SettingsHandler_WriteAll typeName g) =
    [String.append "[" (String.append typeName "][Data]"); String.append "LastPath=" g] /\
  fold_left (fun acc line => SettingsHandler_ReadLine (SettingsHandler_ReadOpen "Data") line acc)
    (tl (ini_lines (SettingsHandler_WriteAll typeName g))) old = g.
Proof.
  intros Hg Hng Hnt. rewrite WriteAll_lines by assumption.
  split; [reflexivity|]. apply ReadLine_LastPath.
Qed.

Lemma settings_round_trip_witness :
  fold_left (fun acc line => SettingsHandler_ReadLine (SettingsHandler_ReadOpen "Data") line acc)
    (tl (ini_lines (SettingsHandler_WriteAll "ImFileBrowser" "/home/u/docs"))) EmptyString =
  "/home/u/docs"%string.
Proof.
  exact (proj2 (settings_round_trip "ImFileBrowser" "/home/u/docs" EmptyString
                  ltac:(discriminate) eq_refl eq_refl)).
Defined.

(** ** Selecting and confirming *)

(** In Open mode, after a row click ([SelectEntry]) the Open button is
    enabled exactly when the clicked index holds a file, and the path it
    returns is that entry's path. *)
Theorem SelectEntry_open_mode (s : Session) (i : Z) :
  mode s = Open ->
  (IsValidSelection (SelectEntry i s) = true <->
   exists e, entry_at (entries s) i = Some e /\ isDirectory e = false) /\
  (forall e, entry_at (entries s) i = Some e -> BuildFullPath (SelectEntry i s) = path e).
Proof.
  intros Hm. unfold SelectEntry.
  destruct (entry_at (entries s) i) as [e|] eqn:He.
  - rewrite Hm. cbn [mode_eqb negb]. rewrite andb_true_r.
    assert (Hv : IsValidSelection (set_selectedIndex i s) = negb (isDirectory e) /\
                 BuildFullPath (set_selectedIndex i s) = path e /\
                 IsValidSelection (set_filenameBuffer (filename_copy (name e))
                                     (set_selectedIndex i s)) = negb (isDirectory e) /\
                 BuildFullPath (set_filenameBuffer (filename_copy (name e))
                                  (set_selectedIndex i s)) = path e).
    { unfold IsValidSelection, BuildFullPath.
      cbn [mode entries selectedIndex set_selectedIndex set_filenameBuffer].
      rewrite Hm, He. repeat split; reflexivity. }
    destruct Hv as [Hv1 [Hb1 [Hv2 Hb2]]].
    destruct (isDirectory e) eqn:Hd; cbn [negb] in *.
    + rewrite Hv1, Hb1. split.
      * split; [discriminate|]. intros [e' [He' Hd']]. injection He' as <-. congruence.
      * intros e' He'. injection He' as <-. reflexivity.
    + rewrite Hv2, Hb2. split.
      * split; [intros _; exists e; split; [reflexivity | exact Hd] | reflexivity].
      * intros e' He'. injection He' as <-. reflexivity.
  - unfold IsValidSelection. cbn [mode entries selectedIndex set_selectedIndex].
    rewrite Hm. unfold entry_at at 1. simpl. split.
    + split; [discriminate|]. intros [e [H _]]. discriminate.
    + intros e H. discriminate.
Qed.

Lemma SelectEntry_open_mode_witness :
  mode (session0 Open [] "/d" "" [file_a; dir_b] (-1)) = Open /\
  BuildFullPath (SelectEntry 0 (session0 Open [] "/d" "" [file_a; dir_b] (-1))) = path file_a.
Proof.
  split; [reflexivity|].
  apply (proj2 (SelectEntry_open_mode (session0 Open [] "/d" "" [file_a; dir_b] (-1)) 0 eq_refl)).
  reflexivity.
Defined.

Lemma OkClick_cases (fs : FileSystem) (isRegular : string -> bool) (d d' : Dialog) :
  OkClick fs isRegular d = Normal d' ->
  d' = d \/
  d' = mkDialog (dsess d) true (BuildFullPath (dsess d)) (g_lastPath d) (notified d) \/
  d' = finish_selected (BuildFullPath (dsess d)) (showOverwriteConfirm d) d.
Proof.
  unfold OkClick. destruct (IsValidSelection (dsess d)); simpl;
    [| intros H; injection H as <-; left; reflexivity].
  destruct (mode_eqb (mode (dsess d)) Save);
    [| intros H; injection H as <-; right; right; reflexivity].
  unfold rbind. destruct (Exists fs _) as [[|]|]; [| intros H; injection H as <-; right; right; reflexivity
                                               | discriminate].
  destruct (IsFile fs isRegular _) as [[|]|]; intros H; try discriminate; injection H as <-;
    [right; left | right; right]; reflexivity.
Qed.

(** The Save button, for a valid file name in Save mode, when the path
    [BuildFullPath] names an existing regular file: the click only opens
    the overwrite confirmation for that path, selecting nothing. Answering
    "Yes" then selects that path, closes the dialog, records the current
    directory as the last path and notifies the path once; answering "No"
    closes the confirmation and leaves the session open and unchanged, with
    nothing notified. *)
Theorem OkClick_save_overwrite (fs : FileSystem) (isRegular : string -> bool) (d : Dialog) :
  mode (dsess d) = Save -> IsValidSelection (dsess d) = true ->
  fs_status fs (BuildFullPath (dsess d)) = StatOther ->
  isRegular (BuildFullPath (dsess d)) = true ->
  exists dc, OkClick fs isRegular d = Normal dc /\
    dsess dc = dsess d /\ showOverwriteConfirm dc = true /\
    overwritePath dc = BuildFullPath (dsess d) /\ notified dc = notified d /\
    (browserResult (dsess (OverwriteYes dc)) = ResSelected /\
     isOpen (dsess (OverwriteYes dc)) = false /\
     selectedPath (dsess (OverwriteYes dc)) = BuildFullPath (dsess d) /\
     showOverwriteConfirm (OverwriteYes dc) = false /\
     g_lastPath (OverwriteYes dc) = currentPath (dsess d) /\
     notified (OverwriteYes dc) = BuildFullPath (dsess d) :: notified d) /\
    (dsess (OverwriteNo dc) = dsess d /\ showOverwriteConfirm (OverwriteNo dc) = false /\
     notified (OverwriteNo dc) = notified d).
Proof.
  intros Hm Hv Hs Hr. unfold OkClick. rewrite Hv, Hm. simpl negb. cbv iota.
  unfold rbind, Exists, IsFile. rewrite Hs, Hr.
  eexists. split; [reflexivity|]. repeat split; reflexivity.
Qed.

Lemma OkClick_save_overwrite_witness :
  let d := dialog0 (session0 Save [] "/d" "a.txt" [] (-1)) in
  mode (dsess d) = Save /\ IsValidSelection (dsess d) = true /\
  fs_status fs_save (BuildFullPath (dsess d)) = StatOther /\
  exists dc, OkClick fs_save (fun _ => true) d = Normal dc /\ showOverwriteConfirm dc = true.
Proof.
  intros d. split; [reflexivity|]. split; [reflexivity|]. split; [reflexivity|].
  destruct (OkClick_save_overwrite fs_save (fun _ => true) d eq_refl eq_refl eq_refl eq_refl)
    as [dc [H1 [_ [H2 _]]]].
  exists dc. split; assumption.
Defined.

(** The Save button, for a valid file name in Save mode, when the path
    [BuildFullPath] names nothing, a directory, or a file that is not a
    regular file: the path is selected at once (no confirmation), the dialog
    closes, the current directory is recorded as the last path and the path
    is notified once. When the path's status cannot be read, the
    [filesystem_error] escapes the click. *)
Theorem OkClick_save_direct (fs : FileSystem) (isRegular : string -> bool) (d : Dialog) :
  mode (dsess d) = Save -> IsValidSelection (dsess d) = true ->
  ((fs_status fs (BuildFullPath (dsess d)) = StatNotFound \/
    fs_status fs (BuildFullPath (dsess d)) = StatDirectory \/
    (fs_status fs (BuildFullPath (dsess d)) = StatOther /\
     isRegular (BuildFullPath (dsess d)) = false)) ->
   exists d', OkClick fs isRegular d = Normal d' /\
   browserResult (dsess d') = ResSelected /\ isOpen (dsess d') = false /\
   selectedPath (dsess d') = BuildFullPath (dsess d) /\
   g_lastPath d' = currentPath (dsess d) /\
   notified d' = BuildFullPath (dsess d) :: notified d) /\
  (fs_status fs (BuildFullPath (dsess d)) = StatError ->
   OkClick fs isRegular d = Raised filesystem_error).
Proof.
  intros Hm Hv. unfold OkClick. rewrite Hv, Hm. simpl negb. cbv iota.
  unfold rbind, Exists, IsFile. split.
  - intros Hcase. eexists. split.
    + destruct Hcase as [Hs|[Hs|[Hs Hr]]]; rewrite Hs; [reflexivity | reflexivity |].
      rewrite Hr. reflexivity.
    + repeat split; reflexivity.
  - intros Hs. rewrite Hs. reflexivity.
Qed.

Lemma OkClick_save_direct_witness :
  let d := dialog0 (session0 Save [] "/d" "b.txt" [] (-1)) in
  mode (dsess d) = Save /\ IsValidSelection (dsess d) = true /\
  fs_status fs_save (BuildFullPath (dsess d)) = StatNotFound /\
  exists d', OkClick fs_save (fun _ => true) d = Normal d' /\
             selectedPath (dsess d') = "/d/b.txt"%string.
Proof.
  intros d. split; [reflexivity|]. split; [reflexivity|]. split; [reflexivity|].
  destruct (proj1 (OkClick_save_direct fs_save (fun _ => true) d eq_refl eq_refl)
              (or_introl eq_refl)) as [d' [H1 [_ [_ [H2 _]]]]].
  exists d'. split; assumption.
Defined.

(** The OK button in Open and SelectFolder modes never queries the file
    system: its outcome does not depend on it. *)
Theorem OkClick_no_fs_outside_save (fs1 fs2 : FileSystem) (r1 r2 : string -> bool) (d : Dialog) :
  mode (dsess d) <> Save -> OkClick fs1 r1 d = OkClick fs2 r2 d.
Proof.
  intros Hm. unfold OkClick.
  replace (mode_eqb (mode (dsess d)) Save) with false
    by (destruct (mode (dsess d)); [reflexivity | congruence | reflexivity]).
  reflexivity.
Qed.

Lemma OkClick_no_fs_outside_save_witness :
  mode (dsess (dialog0 (session0 Open [] "/d" "" [file_a] 0))) <> Save /\
  OkClick fs_d (fun _ => true) (dialog0 (session0 Open [] "/d" "" [file_a] 0)) =
  OkClick fs_save (fun _ => false) (dialog0 (session0 Open [] "/d" "" [file_a] 0)).
Proof.
  split; [discriminate|].
  apply OkClick_no_fs_outside_save. discriminate.
Defined.

(** ** Where a session starts *)

Lemma usable_dir_cases (fs : FileSystem) (p : string) :
  (p <> EmptyString -> fs_status fs p = StatDirectory -> usable_dir fs p = Normal true) /\
  (p = EmptyString \/ fs_status fs p = StatOther \/ fs_status fs p = StatNotFound ->
   usable_dir fs p = Normal false).
Proof.
  unfold usable_dir, IsDirectory. split.
  - intros Hp Hs. rewrite string_eqb_nonempty by exact Hp. rewrite Hs. reflexivity.
  - intros [->|[Hs|Hs]]; [reflexivity| |];
      (destruct (String.eqb p EmptyString); [reflexivity | rewrite Hs; reflexivity]).
Qed.




(** A file chosen with the OK button records the directory it was chosen
    in; the next [Open] without an initial path starts there again as long
    as it still is a directory, also when the last path went through the
    ini file in between (a path without line breaks). *)
Theorem reopen_after_selection (fs : FileSystem) (isRegular : string -> bool) (d d' : Dialog)
    (HOME : option string) (cfg : DialogConfig) (typeName : string) :
  browserResult (dsess d) = ResNone ->
  OkClick fs isRegular d = Normal d' -> browserResult (dsess d') = ResSelected ->
  cfg_initialPath cfg = EmptyString ->
  currentPath (dsess d) <> EmptyString ->
  fs_status fs (currentPath (dsess d)) = StatDirectory ->
  (exists s, OpenSession fs HOME (g_lastPath d') cfg = Normal s /\
             currentPath s = currentPath (dsess d)) /\
  (no_eol (currentPath (dsess d)) = true -> no_eol typeName = true ->
   exists s, OpenSession fs HOME
     (fold_left (fun acc line => SettingsHandler_ReadLine (SettingsHandler_ReadOpen "Data") line acc)
        (tl (ini_lines (SettingsHandler_WriteAll typeName (g_lastPath d')))) EmptyString) cfg
     = Normal s /\ currentPath s = currentPath (dsess d)).
Proof.
  intros Hnone Hok Hsel Hinit Hne Hdir.
  assert (Hlast : g_lastPath d' = currentPath (dsess d)).
  { destruct (OkClick_cases fs isRegular d d' Hok) as [-> | [-> | ->]].
    - cbn in Hsel. congruence.
    - cbn in Hsel. congruence.
    - reflexivity. }
  assert (Hopen : exists s, OpenSession fs HOME (currentPath (dsess d)) cfg = Normal s /\
                            currentPath s = currentPath (dsess d)).
  { unfold OpenSession, rbind.
    rewrite (proj2 (usable_dir_cases fs (cfg_initialPath cfg)) (or_introl Hinit)).
    rewrite (proj1 (usable_dir_cases fs (currentPath (dsess d))) Hne Hdir).
    eexists. split; reflexivity. }
  split; [rewrite Hlast; exact Hopen|].
  intros Hn1 Hn2. rewrite Hlast.
  rewrite WriteAll_lines by assumption. cbn [tl fold_left]. rewrite ReadLine_LastPath.
  exact Hopen.
Qed.

Lemma reopen_after_selection_witness :
  let d := dialog0 (session0 Open [] "/d" "" [file_a] 0) in
  browserResult (dsess d) = ResNone /\
  exists s, OpenSession fs_d None
              (g_lastPath (finish_selected (BuildFullPath (dsess d)) false d)) (cfg0 EmptyString)
            = Normal s /\ currentPath s = "/d"%string.
Proof.
  intros d. split; [reflexivity|].
  exact (proj1 (reopen_after_selection fs_d (fun _ => true) d
                  (finish_selected (BuildFullPath (dsess d)) false d) None (cfg0 EmptyString)
                  "ImFileBrowser" eq_refl eq_refl eq_refl eq_refl ltac:(discriminate) eq_refl)).
Defined.

(** ** The confirmation dialog: Escape, clicks and external closing *)

Module ConfirmMore.
Import Confirm.

(** A frame with the popup open, no click, and Escape pressed. *)
Definition escape_frame : Frame := mkFrame true None true false.

(** Escape on a shown dialog answers Cancel when Cancel is among its
    buttons, otherwise No when No is; the dialog then hides and notifies
    that answer once. With neither button, Escape does nothing: the dialog
    stays shown, returns None and notifies nothing. *)
Theorem Escape_cancel_or_no (btns dflt : Z) (s : CState) :
  let s0 := Show btns dflt s in
  (HasButton btns BtnCancel = true ->
   Render escape_frame s0 = (RCancel, mkCState false RCancel false btns dflt (notified s ++ [RCancel]))) /\
  (HasButton btns BtnCancel = false -> HasButton btns BtnNo = true ->
   Render escape_frame s0 = (RNo, mkCState false RNo false btns dflt (notified s ++ [RNo]))) /\
  (HasButton btns BtnCancel = false -> HasButton btns BtnNo = false ->
   Render escape_frame s0 = (RNone, mkCState true RNone false btns dflt (notified s))).
Proof.
  cbv zeta. unfold Render, escape_frame. cbn [isShown Show negb popupOpen clicked escapePressed
    enterPressed RenderButtons clear_shouldOpen buttons].
  split; [|split].
  - intros Hc. rewrite Hc. reflexivity.
  - intros Hc Hn. rewrite Hc, Hn. reflexivity.
  - intros Hc Hn. rewrite Hc, Hn. reflexivity.
Qed.

Lemma Escape_cancel_or_no_witness :
  HasButton BtnYesNo BtnCancel = false /\ HasButton BtnYesNo BtnNo = true /\
  fst (Render escape_frame (Show BtnYesNo BtnYes (mkCState false RNone false 0 0 []))) = RNo.
Proof.
  split; [reflexivity|]. split; [reflexivity|].
  rewrite (proj1 (proj2 (Escape_cancel_or_no BtnYesNo BtnYes (mkCState false RNone false 0 0 []))) eq_refl eq_refl).
  reflexivity.
Defined.
(** A frame with the popup open, a click on [b], and no key pressed. *)
Definition click_frame (b : Z) : Frame := mkFrame true (Some b) false false.

Lemma button_result_single (b : Z) :
  In b rendered_order -> button_result b <> RNone.
Proof.
  unfold rendered_order. intros H.
  repeat (destruct H as [<-|H]; [discriminate|]). destruct H.
Qed.

(** A click on one of the seven buttons of a shown dialog: when the button
    is enabled (so drawn), its answer is returned, the dialog hides and the
    answer is notified once; when it is not enabled the click has no effect:
    None is returned, the dialog stays shown and nothing is notified. *)
Theorem Click_enabled_or_ignored (btns dflt b : Z) (s : CState) :
  In b rendered_order ->
  let s0 := Show btns dflt s in
  (HasButton btns b = true ->
   Render (click_frame b) s0 =
   (button_result b, mkCState false (button_result b) false btns dflt
                              (notified s ++ [button_result b]))) /\
  (HasButton btns b = false ->
   Render (click_frame b) s0 = (RNone, mkCState true RNone false btns dflt (notified s))).
Proof.
  intros Hin. cbv zeta. unfold Render, click_frame.
  cbn [isShown Show negb popupOpen clicked escapePressed enterPressed clear_shouldOpen].
  unfold RenderButtons. cbn [clicked buttons clear_shouldOpen Show].
  assert (He : existsb (Z.eqb b) rendered_order = true).
  { apply existsb_exists. exists b. split; [exact Hin | apply Z.eqb_refl]. }
  rewrite He. split.
  - intros Hb. rewrite Hb. simpl andb. cbv iota. unfold HandleButtonClick.
    destruct (result_eqb (button_result b) RNone) eqn:Hr.
    + exfalso. apply (button_result_single b Hin).
      destruct (button_result b); try reflexivity; discriminate.
    + reflexivity.
  - intros Hb. rewrite Hb. reflexivity.
Qed.

Lemma Click_enabled_or_ignored_witness :
  In BtnNo rendered_order /\ HasButton BtnOkCancel BtnNo = false /\
  fst (Render (click_frame BtnNo) (Show BtnOkCancel BtnOk (mkCState false RNone false 0 0 []))) = RNone.
Proof.
  split; [unfold rendered_order; simpl; tauto|]. split; [reflexivity|].
  rewrite (proj2 (Click_enabled_or_ignored BtnOkCancel BtnOk BtnNo (mkCState false RNone false 0 0 [])
                   ltac:(unfold rendered_order; simpl; tauto)) eq_refl).
  reflexivity.
Defined.

(** When ImGui reports the popup closed from outside, [Render] hides the
    dialog without delivering or notifying anything, whatever was clicked
    or pressed in that frame; later frames return None. *)
Theorem Closed_externally (btns dflt : Z) (s : CState) (f : Frame) :
  popupOpen f = false ->
  Render f (Show btns dflt s) = (RNone, mkCState false RNone false btns dflt (notified s)) /\
  forall f', Render f' (mkCState false RNone false btns dflt (notified s)) =
             (RNone, mkCState false RNone false btns dflt (notified s)).
Proof.
  intros Hp. split; [|reflexivity].
  unfold Render. cbn [isShown Show negb clear_shouldOpen]. rewrite Hp. reflexivity.
Qed.

Lemma Closed_externally_witness :
  popupOpen (mkFrame false (Some BtnOk) true true) = false /\
  fst (Render (mkFrame false (Some BtnOk) true true)
              (Show BtnOkCancel BtnOk (mkCState false RNone false 0 0 []))) = RNone.
Proof.
  split; [reflexivity|].
  rewrite (proj1 (Closed_externally BtnOkCancel BtnOk (mkCState false RNone false 0 0 [])
                    (mkFrame false (Some BtnOk) true true) eq_refl)).
  reflexivity.
Defined.
End ConfirmMore.

(** ** More on listing and extensions *)


Lemma filter_perm {A : Type} (f : A -> bool) (l l' : list A) :
  Permutation l l' -> Permutation (filter f l) (filter f l').
Proof.
  induction 1 as [|x l l' _ IH|x y l|l l' l'' _ IH1 _ IH2]; simpl.
  - reflexivity.
  - destruct (f x); [apply perm_skip|]; exact IH.
  - destruct (f x), (f y); try reflexivity; apply perm_swap.
  - rewrite IH1. exact IH2.
Qed.

Lemma ListDirectory_orders (fs : FileSystem) (p : string) (o o' : SortOrder) :
  Permutation (ListDirectory fs p o) (ListDirectory fs p o').
Proof.
  unfold ListDirectory, SortEntries. destruct (fs_iter fs p) as [es|]; [|reflexivity].
  rewrite !insertion_sort_perm. reflexivity.
Qed.

(** Picking another sort order ([m_sortOrder] set, then [RefreshDirectory])
    only reorders the listing: the entries shown are the same, each as
    often as before (for directories of at most 16 entries, where the
    insertion sort is [std::sort]). *)
Theorem sort_order_only_reorders (fs : FileSystem) (o : SortOrder) (s : Session)
    (es : list FileEntry) :
  fs_iter fs (currentPath s) = Some es -> (List.length es <= 16)%nat ->
  Permutation (entries (RefreshDirectory fs (set_sortOrder o s)))
              (entries (RefreshDirectory fs s)).
Proof.
  intros _ _.
  unfold RefreshDirectory. cbn [entries set_selectedIndex set_entries set_sortOrder
    mode showHiddenFiles currentPath sortOrder].
  replace (GetCurrentExtensions (set_sortOrder o s)) with (GetCurrentExtensions s) by reflexivity.
  destruct (showHiddenFiles s); [|apply filter_perm];
    (destruct (_ || _); [apply ListDirectory_orders|]);
    (unfold ListDirectoryFiltered; destruct (GetCurrentExtensions s);
       [apply ListDirectory_orders | apply filter_perm, ListDirectory_orders]).
Qed.

Lemma sort_order_only_reorders_witness :
  fs_iter fs_d (currentPath (session0 Open [] "/d" "" [] (-1))) = Some [file_a; dir_b] /\
  Permutation (entries (RefreshDirectory fs_d (set_sortOrder SizeAsc (session0 Open [] "/d" "" [] (-1)))))
              (entries (RefreshDirectory fs_d (session0 Open [] "/d" "" [] (-1)))).
Proof.
  split; [reflexivity|].
  apply (sort_order_only_reorders fs_d SizeAsc (session0 Open [] "/d" "" [] (-1))
           [file_a; dir_b] eq_refl). cbn. lia.
Defined.

Lemma rfind_char_none_notin (ch : ascii) (s : string) :
  rfind_char ch s = None -> ~ In ch (list_ascii_of_string s).
Proof.
  induction s as [|x s IH]; simpl; [tauto|].
  destruct (rfind_char ch s); [discriminate|].
  destruct (Ascii.eqb_spec x ch); [discriminate|].
  intros _ [H|H]; [congruence | exact (IH eq_refl H)].
Qed.

Lemma rfind_char_some (ch : ascii) (s : string) (i : nat) :
  rfind_char ch s = Some i ->
  exists r, drop i s = String ch r /\ ~ In ch (list_ascii_of_string r).
Proof.
  revert i. induction s as [|x s IH]; intros i; simpl; [discriminate|].
  destruct (rfind_char ch s) as [j|] eqn:Hj.
  - intros H. injection H as <-. exact (IH j eq_refl).
  - destruct (Ascii.eqb_spec x ch); [|discriminate].
    intros H. injection H as <-. subst x. exists s. split; [reflexivity|].
    exact (rfind_char_none_notin ch s Hj).
Qed.

Lemma tolower_dot (c : ascii) : tolower c = "."%char -> c = "."%char.
Proof.
  unfold tolower. cbv zeta.
  destruct ((65 <=? nat_of_ascii c) && (nat_of_ascii c <=? 90))%nat eqn:H; [|tauto].
  apply andb_true_iff in H as [H1 H2]. apply Nat.leb_le in H1, H2.
  intros E. apply (f_equal nat_of_ascii) in E.
  rewrite nat_ascii_embedding in E by lia. change (nat_of_ascii ".") with 46%nat in E. lia.
Qed.

Lemma lower_no_dot (r : string) :
  ~ In "."%char (list_ascii_of_string r) -> ~ In "."%char (list_ascii_of_string (lower r)).
Proof.
  induction r as [|c r IH]; simpl; [tauto|].
  intros H [E|E]; [apply H; left; apply tolower_dot; exact E|].
  apply IH; [tauto | exact E].
Qed.

(** [GetExtension] returns either the empty string or '.' followed by the
    text after the last '.' of the file name; that text contains no '.' and
    is in lower case. *)
Theorem GetExtension_shape (p : string) :
  GetExtension p = EmptyString \/
  exists r, GetExtension p = String "." r /\ ~ In "."%char (list_ascii_of_string r) /\ lower r = r.
Proof.
  unfold GetExtension, path_extension.
  destruct (_ && _); [left; reflexivity|].
  destruct (rfind_char "." (path_filename p)) as [[|k]|] eqn:Hr; [left; reflexivity | |left; reflexivity].
  right. destruct (rfind_char_some _ _ _ Hr) as [r [Hd Hn]]. rewrite Hd.
  exists (lower r). split; [reflexivity|]. split; [apply lower_no_dot; exact Hn | apply lower_idem].
Qed.

(** ** Parsing filter patterns *)

Lemma find_first_of_app (set c s : string) :
  (forall ch, In ch (list_ascii_of_string c) -> ~ In ch (list_ascii_of_string set)) ->
  find_first_of set (String.append c s) =
  option_map (Nat.add (String.length c)) (find_first_of set s).
Proof.
  intros H. induction c as [|a c IH]; simpl.
  - destruct (find_first_of set s); reflexivity.
  - destruct (existsb (Ascii.eqb a) (list_ascii_of_string set)) eqn:Ha.
    + exfalso. apply existsb_exists in Ha as [y [Hy Hay]]. apply Ascii.eqb_eq in Hay. subst y.
      exact (H a (or_introl eq_refl) Hy).
    + rewrite IH by (intros ch Hch; apply H; right; exact Hch).
      destruct (find_first_of set s); reflexivity.
Qed.

Lemma find_sub_pattern (e : string) : find_sub "*." (String "*" (String "." e)) = Some 0%nat.
Proof. destruct e; reflexivity. Qed.

Lemma extension_loop_patterns (es : list string) (fuel : nat) :
  (forall e, In e es -> ~ In ";"%char (list_ascii_of_string e) /\ ~ In ","%char (list_ascii_of_string e)) ->
  (List.length es <= fuel)%nat ->
  extension_loop fuel (String.concat ";" (map (fun e => String "*" (String "." e)) es)) =
  map (fun e => lower (String "." e)) es.
Proof.
  revert fuel. induction es as [|e es IH]; intros fuel Hes Hf.
  - destruct fuel; reflexivity.
  - destruct fuel as [|fuel]; [simpl in Hf; lia|].
    assert (Hsep : forall ch, In ch (list_ascii_of_string e) ->
                              ~ In ch (list_ascii_of_string ";,")).
    { intros ch Hch Hin. destruct (Hes e (or_introl eq_refl)) as [H1 H2].
      simpl in Hin. destruct Hin as [<-|[<-|[]]]; [exact (H1 Hch) | exact (H2 Hch)]. }
    destruct es as [|e' es'].
    + cbn [map String.concat]. cbn [extension_loop]. rewrite find_sub_pattern.
      cbn [Nat.add drop].
      pose proof (find_first_of_app ";," e EmptyString Hsep) as Hn.
      rewrite append_empty_r in Hn. simpl in Hn. rewrite Hn. reflexivity.
    + change (String.concat ";" (map (fun e => String "*" (String "." e)) (e :: e' :: es')))
        with (String "*" (String "." (String.append e
                (String ";" (String.concat ";" (map (fun e => String "*" (String "." e)) (e' :: es'))))))).
      cbn [extension_loop]. rewrite find_sub_pattern. cbn [Nat.add drop].
      rewrite find_first_of_app by exact Hsep. simpl option_map.
      rewrite Nat.add_0_r, take_length_app, drop_length_app_S.
      cbn [map]. f_equal. apply IH.
      * intros x Hx. apply Hes. right. exact Hx.
      * simpl in Hf |- *. lia.
Qed.

(** [GetExtensionList] parses the pattern lists it is written for: for
    "*.e1;*.e2;...;*.en", where no [ei] contains ';' or ',', it returns
    ".e1", ..., ".en" in lower case and in the same order (nothing for an
    empty pattern string). *)
Theorem GetExtensionList_patterns (desc : string) (es : list string) :
  (forall e, In e es -> ~ In ";"%char (list_ascii_of_string e) /\ ~ In ","%char (list_ascii_of_string e)) ->
  GetExtensionList (mkFilter desc (String.concat ";" (map (fun e => String "*" (String "." e)) es))) =
  map (fun e => lower (String "." e)) es.
Proof.
  intros Hes. unfold GetExtensionList. cbn [extensions].
  apply extension_loop_patterns; [exact Hes|].
  clear Hes. induction es as [|e es IH]; [simpl; lia|].
  destruct es as [|e' es']; [simpl; lia|].
  change (String.concat ";" (map (fun e => String "*" (String "." e)) (e :: e' :: es')))
    with (String "*" (String "." (String.append e
            (String ";" (String.concat ";" (map (fun e => String "*" (String "." e)) (e' :: es'))))))).
  cbn [String.length]. rewrite length_append. cbn [String.length].
  simpl List.length in IH |- *. lia.
Qed.

Lemma GetExtensionList_patterns_witness :
  GetExtensionList (mkFilter "Images" "*.PNG;*.jpg") = [".png"; ".jpg"]%string.
Proof.
  change "*.PNG;*.jpg"%string with
    (String.concat ";" (map (fun e => String "*" (String "." e)) ["PNG"; "jpg"]%string)).
  rewrite GetExtensionList_patterns; [reflexivity|].
  intros e [<-|[<-|[]]]; split; not_in_chars.
Defined.
